(** * Employee-record manager (src/app/app.ts): model and verified properties

    The component [App] of [src/app/app.ts] is embedded as a record of its
    signals plus the browser's [localStorage], and each method as a function
    from state to state.  JavaScript values that cross the persistence
    boundary are kept untyped ([value]), since [JSON.parse(raw) as Employee[]]
    is an unchecked cast; the form and the draft are typed after the
    interfaces [Employee] and [DocInfo].

    Conventions of the model:
    - a JavaScript [number] is an integer ([Z]); fractions, [NaN] and the
      infinities are outside the model, and so are the integers that a
      double does not hold exactly: where a property depends on the
      arithmetic or on the text of a number, it is stated for integers
      below 2^53 in size;
    - a JavaScript string is a [string] of 8-bit code units; the case
      mapping is modelled on ASCII;
    - the DOM side effects of [resetForm]/[removePhoto] (clearing the two
      file inputs) and [window.scrollTo] are not part of the state. *)

From Stdlib Require Import ZArith NArith QArith Qround Qabs Ascii String Decimal DecimalFacts DecimalString DecimalN DecimalZ Lia.
From stdpp Require Import base list gmap strings.

Local Open Scope Z_scope.

(** ** JavaScript values *)

Unset Elimination Schemes.
Inductive value : Type :=
| VUndefined
| VNull
| VBool (b : bool)
| VNum (n : Z)
| VStr (s : string)
| VArr (items : list value)
| VObj (members : list (string * value)).
Set Elimination Schemes.

(** [ToBoolean]: the truthiness test behind [!x] and [x || y]. *)
Definition ToBoolean (v : value) : bool :=
  match v with
  | VUndefined | VNull => false
  | VBool b => b
  | VNum n => negb (n =? 0)
  | VStr s => negb (String.eqb s EmptyString)
  | VArr _ | VObj _ => true
  end.

(** [o[k]] / [o.k] for the property names this program reads: an own
    member of an object, [undefined] otherwise. *)
Fixpoint assoc (ms : list (string * value)) (k : string) : option value :=
  match ms with
  | [] => None
  | (k', v) :: ms' => if String.eqb k' k then Some v else assoc ms' k
  end.

Definition prop (o : value) (k : string) : value :=
  match o with
  | VObj ms => default VUndefined (assoc ms k)
  | _ => VUndefined
  end.

(** ** JavaScript arrays *)

(** [a[index]]: [undefined] outside the array. *)
Definition array_get (a : list value) (index : Z) : value :=
  if index <? 0 then VUndefined
  else default VUndefined (a !! Z.to_nat index).

(** [a[idx] = v] for [idx >= 0]: replaces in range; past the end the array
    is extended, the skipped positions being holes (they read as
    [undefined]). *)
Definition array_set (a : list value) (idx : nat) (v : value) : list value :=
  if decide (idx < length a)%nat then <[idx := v]> a
  else a ++ replicate (idx - length a) VUndefined ++ [v].

(** [a.splice(start, deleteCount)]: the array that is left.  A negative
    [start] counts back from the end; both arguments are clamped. *)
Definition splice {A} (a : list A) (start deleteCount : Z) : list A :=
  let len := Z.of_nat (length a) in
  let actualStart := if start <? 0 then Z.max (len + start) 0 else Z.min start len in
  let actualDeleteCount := Z.min (Z.max deleteCount 0) (len - actualStart) in
  take (Z.to_nat actualStart) a ++ drop (Z.to_nat (actualStart + actualDeleteCount)) a.

(** [a.slice(0, n)] *)
Definition slice0 {A} (n : nat) (a : list A) : list A := take n a.

(** ** JavaScript strings *)

Definition quote : ascii := "034"%char.
Definition backslash : ascii := "\"%char.

Definition is_digit (c : ascii) : bool :=
  (48 <=? nat_of_ascii c)%nat && (nat_of_ascii c <=? 57)%nat.

(** [Number.prototype.toString] on an integer: plain decimal digits. *)
Definition N_to_string (n : N) : string := NilZero.string_of_uint (N.to_uint n).

Definition Z_to_string (n : Z) : string :=
  if n <? 0 then String "-" (N_to_string (Z.abs_N n)) else N_to_string (Z.to_N n).

(** [s.split(sep)] for a one-character separator: every occurrence of
    [sep] ends a token, empty tokens included; [''.split(sep)] is [['']]. *)
Fixpoint split (sep : ascii) (s : string) : list string :=
  match s with
  | EmptyString => [EmptyString]
  | String c r =>
    if Ascii.eqb c sep then EmptyString :: split sep r
    else match split sep r with
         | tok :: toks => String c tok :: toks
         | [] => [String c EmptyString]
         end
  end.

(** [a.join('')] *)
Definition join (toks : list string) : string := foldr String.append EmptyString toks.

(** [c.toUpperCase()] on one ASCII code unit: the letters a-z are mapped
    to A-Z and every other ASCII code unit is unchanged.  The case mapping
    of the code units above 127 is outside the model (some of them map to
    two code units or to a code unit above 255); the properties of
    [initials] that depend on the case mapping are stated for ASCII
    names. *)
Definition toUpperCase_char (c : ascii) : ascii :=
  let n := nat_of_ascii c in
  if (97 <=? n)%nat && (n <=? 122)%nat then ascii_of_nat (n - 32) else c.

Fixpoint toUpperCase (s : string) : string :=
  match s with
  | EmptyString => EmptyString
  | String c r => String (toUpperCase_char c) (toUpperCase r)
  end.

(** [s[0]]: the first code unit as a string, [undefined] on the empty string. *)
Definition char0 (s : string) : option string :=
  match s with
  | EmptyString => None
  | String c _ => Some (String c EmptyString)
  end.

(** ** JSON.stringify *)

Definition hex_digit (n : nat) : ascii :=
  if (n <? 10)%nat then ascii_of_nat (48 + n) else ascii_of_nat (87 + n).

(** One code unit inside [QuoteJSONString]. *)
Definition quote_char (c : ascii) : string :=
  let n := nat_of_ascii c in
  if Ascii.eqb c quote then String backslash (String quote EmptyString)
  else if Ascii.eqb c backslash then String backslash (String backslash EmptyString)
  else if (n =? 8)%nat then String backslash "b"
  else if (n =? 9)%nat then String backslash "t"
  else if (n =? 10)%nat then String backslash "n"
  else if (n =? 12)%nat then String backslash "f"
  else if (n =? 13)%nat then String backslash "r"
  else if (n <? 32)%nat then
    String backslash ("u00" +:+ String (hex_digit (n / 16)) (String (hex_digit (n mod 16)) EmptyString))
  else String c EmptyString.

Fixpoint quote_body (s : string) : string :=
  match s with
  | EmptyString => EmptyString
  | String c r => quote_char c +:+ quote_body r
  end.

Definition QuoteJSONString (s : string) : string :=
  String quote (quote_body s +:+ String quote EmptyString).

(** [items.join(',')] on already serialized items. *)
Fixpoint join_comma (parts : list string) : string :=
  match parts with
  | [] => EmptyString
  | [p] => p
  | p :: ps => p +:+ String "," (join_comma ps)
  end.

(** [SerializeJSONProperty]: an [undefined] array element (or a hole) is
    written as [null]; an object member whose value is [undefined] is
    left out. *)
Fixpoint serialize (v : value) : string :=
  match v with
  | VUndefined | VNull => "null"
  | VBool true => "true"
  | VBool false => "false"
  | VNum n => Z_to_string n
  | VStr s => QuoteJSONString s
  | VArr items => String "[" (join_comma (map serialize items) +:+ "]")
  | VObj members =>
    String "{"
      (join_comma
         ((fix go (ms : list (string * value)) : list string :=
             match ms with
             | [] => []
             | (k, VUndefined) :: ms' => go ms'
             | (k, v) :: ms' => (QuoteJSONString k +:+ String ":" (serialize v)) :: go ms'
             end) members) +:+ "}")
  end.

(** [JSON.stringify(v)]: [undefined] (here [None]) for [undefined] itself. *)
Definition JSON_stringify (v : value) : option string :=
  match v with
  | VUndefined => None
  | _ => Some (serialize v)
  end.

(** ** JSON.parse

    A recursive-descent reader of the JSON grammar.  [None] stands for the
    [SyntaxError] that [JSON.parse] throws.  Two kinds of text are outside
    the model and are read as [None] too: a number with a fraction or an
    exponent, and a [\u] escape of a code unit above 255.  What is proved
    of [loadEmployees] in general is therefore proved for any reader
    ([loadEmployees_with]), and this reader is used on texts inside the
    model: the ones [JSON.stringify] writes, and concrete ones. *)

Definition is_ws (c : ascii) : bool :=
  let n := nat_of_ascii c in
  (n =? 32)%nat || (n =? 9)%nat || (n =? 10)%nat || (n =? 13)%nat.

Fixpoint skip_ws (s : string) : string :=
  match s with
  | String c r => if is_ws c then skip_ws r else s
  | EmptyString => s
  end.

Fixpoint strip_prefix (p s : string) : option string :=
  match p, s with
  | EmptyString, _ => Some s
  | String a p', String b s' => if Ascii.eqb a b then strip_prefix p' s' else None
  | String _ _, EmptyString => None
  end.

Definition hex_val (c : ascii) : option nat :=
  let n := nat_of_ascii c in
  if is_digit c then Some (n - 48)%nat
  else if (97 <=? n)%nat && (n <=? 102)%nat then Some (n - 87)%nat
  else if (65 <=? n)%nat && (n <=? 70)%nat then Some (n - 55)%nat
  else None.

(** The character an escape [\e] stands for ([\u] apart). *)
Definition unescape (e : ascii) : option ascii :=
  if Ascii.eqb e quote then Some quote
  else if Ascii.eqb e backslash then Some backslash
  else if Ascii.eqb e "/" then Some "/"%char
  else if Ascii.eqb e "b" then Some (ascii_of_nat 8)
  else if Ascii.eqb e "t" then Some (ascii_of_nat 9)
  else if Ascii.eqb e "n" then Some (ascii_of_nat 10)
  else if Ascii.eqb e "f" then Some (ascii_of_nat 12)
  else if Ascii.eqb e "r" then Some (ascii_of_nat 13)
  else None.

Definition cons_char (c : ascii) (o : option (string * string)) : option (string * string) :=
  match o with
  | Some (body, rest) => Some (String c body, rest)
  | None => None
  end.

(** The text after an opening quote: the string's content and what
    follows the closing quote. *)
Fixpoint parse_string (s : string) : option (string * string) :=
  match s with
  | EmptyString => None
  | String c r =>
    if Ascii.eqb c quote then Some (EmptyString, r)
    else if Ascii.eqb c backslash then
      match r with
      | EmptyString => None
      | String e r1 =>
        if Ascii.eqb e "u" then
          match r1 with
          | String h1 (String h2 (String h3 (String h4 r2))) =>
            match hex_val h1, hex_val h2, hex_val h3, hex_val h4 with
            | Some a, Some b, Some c', Some d =>
              let code := (((a * 16 + b) * 16 + c') * 16 + d)%nat in
              if (code <? 256)%nat then cons_char (ascii_of_nat code) (parse_string r2)
              else None
            | _, _, _, _ => None
            end
          | _ => None
          end
        else
          match unescape e with
          | Some c' => cons_char c' (parse_string r1)
          | None => None
          end
      end
    else if (nat_of_ascii c <? 32)%nat then None
    else cons_char c (parse_string r)
  end.

Fixpoint span_digits (s : string) : string * string :=
  match s with
  | String c r =>
    if is_digit c then let '(ds, rest) := span_digits r in (String c ds, rest)
    else (EmptyString, s)
  | EmptyString => (EmptyString, EmptyString)
  end.

Definition starts_fraction_or_exponent (s : string) : bool :=
  match s with
  | String c _ => Ascii.eqb c "." || Ascii.eqb c "e" || Ascii.eqb c "E"
  | EmptyString => false
  end.

(** An integer literal: an optional minus sign, then [0] or a digit
    sequence without a leading zero. *)
Definition parse_number (s : string) : option (Z * string) :=
  let '(negative, s1) :=
    match s with
    | String c r => if Ascii.eqb c "-" then (true, r) else (false, s)
    | EmptyString => (false, s)
    end in
  let '(ds, rest) := span_digits s1 in
  match ds with
  | EmptyString => None
  | String d ds' =>
    if Ascii.eqb d "0" && negb (String.eqb ds' EmptyString) then None
    else if starts_fraction_or_exponent rest then None
    else
      match NilEmpty.uint_of_string ds with
      | Some u =>
        let n := Z.of_N (N.of_uint u) in
        Some (if negative then - n else n, rest)
      | None => None
      end
  end.

(** Property order of an object: array-index keys first, in ascending
    numeric order, then the other keys in insertion order; defining an
    existing key again overwrites its value in place. *)
Definition array_index (k : string) : option N :=
  match NilEmpty.uint_of_string k with
  | Some u =>
    let n := N.of_uint u in
    if String.eqb (N_to_string n) k && (n <? 4294967295)%N then Some n else None
  | None => None
  end.

Fixpoint obj_replace (ms : list (string * value)) (k : string) (v : value)
  : option (list (string * value)) :=
  match ms with
  | [] => None
  | (k', v') :: ms' =>
    if String.eqb k' k then Some ((k', v) :: ms')
    else match obj_replace ms' k v with
         | Some ms'' => Some ((k', v') :: ms'')
         | None => None
         end
  end.

Fixpoint obj_insert_index (ms : list (string * value)) (n : N) (k : string) (v : value)
  : list (string * value) :=
  match ms with
  | [] => [(k, v)]
  | (k', v') :: ms' =>
    match array_index k' with
    | Some n' => if (n' <? n)%N then (k', v') :: obj_insert_index ms' n k v else (k, v) :: ms
    | None => (k, v) :: ms
    end
  end.

Definition obj_set (ms : list (string * value)) (k : string) (v : value)
  : list (string * value) :=
  match obj_replace ms k v with
  | Some ms' => ms'
  | None =>
    match array_index k with
    | Some n => obj_insert_index ms n k v
    | None => ms ++ [(k, v)]
    end
  end.

Definition with_rest {A B} (f : A -> B) (o : option (A * string)) : option (B * string) :=
  match o with
  | Some (a, rest) => Some (f a, rest)
  | None => None
  end.

(** The rest [p] of a literal name ([null], [true], [false]) standing for [v]. *)
Definition literal (p : string) (v : value) (s : string) : option (value * string) :=
  match strip_prefix p s with
  | Some rest => Some (v, rest)
  | None => None
  end.

Fixpoint parse_value (fuel : nat) (s : string) : option (value * string) :=
  match fuel with
  | O => None
  | S fuel' =>
    match skip_ws s with
    | EmptyString => None
    | String c r =>
      if Ascii.eqb c "[" then
        match skip_ws r with
        | String c' r' =>
          if Ascii.eqb c' "]" then Some (VArr [], r')
          else with_rest VArr (parse_elements fuel' r)
        | EmptyString => None
        end
      else if Ascii.eqb c "{" then
        match skip_ws r with
        | String c' r' =>
          if Ascii.eqb c' "}" then Some (VObj [], r')
          else parse_members fuel' r []
        | EmptyString => None
        end
      else if Ascii.eqb c quote then with_rest VStr (parse_string r)
      else if Ascii.eqb c "n" then literal "ull" VNull r
      else if Ascii.eqb c "t" then literal "rue" (VBool true) r
      else if Ascii.eqb c "f" then literal "alse" (VBool false) r
      else with_rest VNum (parse_number (String c r))
    end
  end
with parse_elements (fuel : nat) (s : string) : option (list value * string) :=
  match fuel with
  | O => None
  | S fuel' =>
    match parse_value fuel' s with
    | Some (v, r) =>
      match skip_ws r with
      | String c r' =>
        if Ascii.eqb c "," then with_rest (cons v) (parse_elements fuel' r')
        else if Ascii.eqb c "]" then Some ([v], r')
        else None
      | EmptyString => None
      end
    | None => None
    end
  end
with parse_members (fuel : nat) (s : string) (acc : list (string * value))
  : option (value * string) :=
  match fuel with
  | O => None
  | S fuel' =>
    match skip_ws s with
    | String q r =>
      if Ascii.eqb q quote then
        match parse_string r with
        | Some (k, r1) =>
          match skip_ws r1 with
          | String c r2 =>
            if Ascii.eqb c ":" then
              match parse_value fuel' r2 with
              | Some (v, r3) =>
                let acc' := obj_set acc k v in
                match skip_ws r3 with
                | String c' r4 =>
                  if Ascii.eqb c' "," then parse_members fuel' r4 acc'
                  else if Ascii.eqb c' "}" then Some (VObj acc', r4)
                  else None
                | EmptyString => None
                end
              | None => None
              end
            else None
          | EmptyString => None
          end
        | None => None
        end
      else None
    | EmptyString => None
    end
  end.

(** [JSON.parse(text)]: one value, with nothing but white space around it. *)
Definition JSON_parse (text : string) : option value :=
  match parse_value (S (String.length text)) text with
  | Some (v, rest) =>
    match skip_ws rest with
    | EmptyString => Some v
    | String _ _ => None
    end
  | None => None
  end.

(** ** Data model (interfaces [DocInfo] and [Employee]) *)

Module DocInfo.
Record t := mk { name : string; size : Z (* bytes *) }.

Definition to_value (d : t) : value :=
  VObj [("name", VStr (name d)); ("size", VNum (size d))].
End DocInfo.

Module Employee.
Record t := mk {
  name : string;
  phone : string;
  email : option string;
  nid : string;
  dob : string;
  address : string;
  qualification : string;
  religion : option string;
  experience : Z;
  lastWorkPlace : option string;
  salary : Z;
  photoDataUrl : option string;
  documents : list DocInfo.t
}.
End Employee.

(** A value of type [string | null]. *)
Definition nullable (o : option string) : value :=
  match o with
  | Some s => VStr s
  | None => VNull
  end.

(** The object an [Employee] is at run time; the members are in the order
    in which [addEmployee] and [updateEmployee] create them. *)
Definition Employee_to_value (e : Employee.t) : value :=
  VObj [("name", VStr (Employee.name e));
        ("phone", VStr (Employee.phone e));
        ("email", nullable (Employee.email e));
        ("nid", VStr (Employee.nid e));
        ("dob", VStr (Employee.dob e));
        ("address", VStr (Employee.address e));
        ("qualification", VStr (Employee.qualification e));
        ("religion", nullable (Employee.religion e));
        ("experience", VNum (Employee.experience e));
        ("lastWorkPlace", nullable (Employee.lastWorkPlace e));
        ("salary", VNum (Employee.salary e));
        ("photoDataUrl", nullable (Employee.photoDataUrl e));
        ("documents", VArr (map DocInfo.to_value (Employee.documents e)))].

(** Reading a stored element at the types the interfaces declare.  The
    cast [as Employee[]] is unchecked: a member that is missing, [null] or
    of another run-time type than declared reads as absent ([None], the
    empty string, [0], the empty list). *)
Definition as_string (v : value) : string :=
  match v with VStr s => s | _ => EmptyString end.

Definition as_optional_string (v : value) : option string :=
  match v with VStr s => Some s | _ => None end.

Definition as_number (v : value) : Z :=
  match v with VNum n => n | _ => 0 end.

Definition as_DocInfo (v : value) : DocInfo.t :=
  DocInfo.mk (as_string (prop v "name")) (as_number (prop v "size")).

Definition as_documents (v : value) : list DocInfo.t :=
  match v with VArr items => map as_DocInfo items | _ => [] end.

Definition as_Employee (v : value) : Employee.t :=
  {| Employee.name := as_string (prop v "name");
     Employee.phone := as_string (prop v "phone");
     Employee.email := as_optional_string (prop v "email");
     Employee.nid := as_string (prop v "nid");
     Employee.dob := as_string (prop v "dob");
     Employee.address := as_string (prop v "address");
     Employee.qualification := as_string (prop v "qualification");
     Employee.religion := as_optional_string (prop v "religion");
     Employee.experience := as_number (prop v "experience");
     Employee.lastWorkPlace := as_optional_string (prop v "lastWorkPlace");
     Employee.salary := as_number (prop v "salary");
     Employee.photoDataUrl := as_optional_string (prop v "photoDataUrl");
     Employee.documents := as_documents (prop v "documents") |}.

(** ** The reactive form *)

Module FormValue.
Record t := mk {
  name : string;
  phone : string;
  email : string;
  nid : string;
  dob : string;
  address : string;
  qualification : string;
  religion : string;
  experience : Z;
  lastWorkPlace : string;
  salary : Z
}.
End FormValue.

(** The controls that [ngOnInit] declares. *)
Definition control_names : list string :=
  ["name"; "phone"; "email"; "nid"; "dob"; "address"; "qualification";
   "religion"; "experience"; "lastWorkPlace"; "salary"].

Module FormGroup.
Record t := mk { value : FormValue.t; touched : gset string }.

(** [form.reset(v)]: the controls take the given values and are marked
    untouched. *)
Definition reset (f : t) (v : FormValue.t) : t := mk v ∅.

(** [form.markAllAsTouched()] *)
Definition markAllAsTouched (f : t) : t := mk (value f) (list_to_set control_names).
End FormGroup.

(** [{ ...this.form.value, photoDataUrl: this.photoPreview(), documents: this.docs() }] *)
Definition merge_record (v : FormValue.t) (photo : option string) (documents : list DocInfo.t)
  : Employee.t :=
  {| Employee.name := FormValue.name v;
     Employee.phone := FormValue.phone v;
     Employee.email := Some (FormValue.email v);
     Employee.nid := FormValue.nid v;
     Employee.dob := FormValue.dob v;
     Employee.address := FormValue.address v;
     Employee.qualification := FormValue.qualification v;
     Employee.religion := Some (FormValue.religion v);
     Employee.experience := FormValue.experience v;
     Employee.lastWorkPlace := Some (FormValue.lastWorkPlace v);
     Employee.salary := FormValue.salary v;
     Employee.photoDataUrl := photo;
     Employee.documents := documents |}.

(** The values of a pristine form ([resetForm], and the initial values of
    [ngOnInit]). *)
Definition blank : FormValue.t :=
  {| FormValue.name := EmptyString;
     FormValue.phone := EmptyString;
     FormValue.email := EmptyString;
     FormValue.nid := EmptyString;
     FormValue.dob := EmptyString;
     FormValue.address := EmptyString;
     FormValue.qualification := EmptyString;
     FormValue.religion := EmptyString;
     FormValue.experience := 0;
     FormValue.lastWorkPlace := EmptyString;
     FormValue.salary := 0 |}.

(** Modelled from the spec: Angular's [Validators] (library code, not part
    of the repository), as section 4.3 describes the rules that [ngOnInit]
    attaches: required-non-empty, a maximal length, the phone pattern
    [/^\d{10,15}$/], a numeric minimum, and an e-mail format that is
    checked only on a non-empty value.  The e-mail format itself is the
    library's and is taken as a parameter. *)
Module Validators.
Definition required (s : string) : bool := negb (String.eqb s EmptyString).

Definition maxLength (n : nat) (s : string) : bool := (String.length s <=? n)%nat.

Fixpoint all_digits (s : string) : bool :=
  match s with
  | EmptyString => true
  | String c r => is_digit c && all_digits r
  end.

Definition pattern_phone (s : string) : bool :=
  all_digits s && (10 <=? String.length s)%nat && (String.length s <=? 15)%nat.

Definition email (format : string -> bool) (s : string) : bool :=
  String.eqb s EmptyString || format s.

Definition min (bound n : Z) : bool := bound <=? n.
End Validators.

(** ** Formatting helpers *)

Definition sizes : list string := ["B"; "KB"; "MB"; "GB"; "TB"].

(** What the double [Math.log(bytes)] can tell apart.  The logarithms of
    the three integers just below 2^50 are less than half a unit in the
    last place away from the logarithm of 2^50, so [Math.log] returns the
    same double for them as for 2^50; this is the only place below 2^53
    where the rounding moves the integer part of the quotient. *)
Definition log_argument (bytes : Z) : Z :=
  if (2 ^ 50 - 3 <=? bytes) && (bytes <? 2 ^ 50) then 2 ^ 50 else bytes.

(** [Math.floor(Math.log(bytes) / Math.log(k))] for an integer
    [0 < bytes < 2^53] and [k] = 1024 (the quotient of the binary
    logarithms is the logarithm in base [k] for a power of two). *)
Definition floor_log (k bytes : Z) : Z := Z.log2 (log_argument bytes) / Z.log2 k.

(** [s.padStart(n, '0')] *)
Definition pad_zeros (n : nat) (s : string) : string :=
  string_of_list_ascii (replicate (n - String.length s) "0"%char) +:+ s.

(** [x.toFixed(digits)]: the integer [n] nearest to [x * 10^digits] (the
    larger one on a tie), written with [digits] decimals. *)
Definition toFixed (x : Q) (digits : nat) : string :=
  let sign := if Qle_bool 0 x then EmptyString else "-" in
  let n := Qfloor (Qabs x * inject_Z (10 ^ Z.of_nat digits) + (1 # 2)) in
  let m := N_to_string (Z.to_N n) in
  match digits with
  | O => sign +:+ m
  | S _ =>
    let m := pad_zeros (S digits) m in
    let k := String.length m in
    sign +:+ String.substring 0 (k - digits) m +:+ "." +:+ String.substring (k - digits) digits m
  end.

Definition formatBytes (bytes : Z) : string :=
  if bytes =? 0 then "0 B"
  else if bytes <? 0 then "NaN undefined" (* [Math.log] of a negative number is [NaN] *)
  else
    let k := 1024 in
    let i := floor_log k bytes in
    let val := (inject_Z bytes / inject_Z (k ^ i))%Q in
    toFixed val (if Qle_bool 10 val || (i =? 0) then 0 else 1)
      +:+ " " +:+ default "undefined" (sizes !! Z.to_nat i).

(** [name || ''] *)
Definition or_empty (name : string) : string :=
  if String.eqb name EmptyString then EmptyString else name.

(** [Boolean] as the filter of a list of strings. *)
Definition nonempty (s : string) : bool := negb (String.eqb s EmptyString).

Definition initials (name : string) : string :=
  join (map (fun s => match char0 s with
                      | Some c => toUpperCase c
                      | None => EmptyString
                      end)
            (slice0 2 (List.filter nonempty (split " " (or_empty name))))).

(** ** The component [App] *)

(** The signals of the component, its form, and the browser's
    [localStorage]. *)
Record App := mkApp {
  form : FormGroup.t;
  employees : list value;
  editingIndex : option Z;
  photoPreview : option string;
  docs : list DocInfo.t;
  localStorage : gmap string string
}.

Definition LS_KEY : string := "employees".

Definition with_form (st : App) (f : FormGroup.t) : App :=
  mkApp f (employees st) (editingIndex st) (photoPreview st) (docs st) (localStorage st).

Definition with_employees (st : App) (l : list value) : App :=
  mkApp (form st) l (editingIndex st) (photoPreview st) (docs st) (localStorage st).

Definition with_photoPreview (st : App) (p : option string) : App :=
  mkApp (form st) (employees st) (editingIndex st) p (docs st) (localStorage st).

Definition with_docs (st : App) (d : list DocInfo.t) : App :=
  mkApp (form st) (employees st) (editingIndex st) (photoPreview st) d (localStorage st).

Definition with_localStorage (st : App) (ls : gmap string string) : App :=
  mkApp (form st) (employees st) (editingIndex st) (photoPreview st) (docs st) ls.

(** *** File handling *)

(** The [onload] callback of [onPhotoSelected]: the file has been read. *)
Definition onPhotoLoaded (st : App) (result : string) : App :=
  with_photoPreview st (Some result).

Definition removePhoto (st : App) : App := with_photoPreview st None.

(** [files] holds the name and size of each selected file. *)
Definition onDocsSelected (st : App) (files : list DocInfo.t) : App :=
  match files with
  | [] => st
  | _ => with_docs st (docs st ++ files)
  end.

Definition removeDoc (st : App) (index : Z) : App :=
  with_docs st (splice (docs st) index 1).

(** *** Persistence *)

Definition saveEmployees (st : App) : App :=
  with_localStorage st
    (<[LS_KEY := default "undefined" (JSON_stringify (VArr (employees st)))]> (localStorage st)).

(** [loadEmployees], with the reader it calls as a parameter: [parse]
    stands for [JSON.parse], [None] for the [SyntaxError] it throws. *)
Definition loadEmployees_with (parse : string -> option value) (st : App) : App :=
  match localStorage st !! LS_KEY with
  | None => with_employees st []
  | Some raw =>
    if String.eqb raw EmptyString then with_employees st []
    else
      match parse raw with
      | Some data => with_employees st (match data with VArr items => items | _ => [] end)
      | None => with_employees st []
      end
  end.

Definition loadEmployees (st : App) : App := loadEmployees_with JSON_parse st.

(** *** CRUD *)

Definition resetForm (st : App) : App :=
  mkApp (FormGroup.reset (form st) blank) (employees st) None None [] (localStorage st).

Definition editEmployee (st : App) (index : Z) : App :=
  let emp := array_get (employees st) index in
  if negb (ToBoolean emp) then st
  else
    let emp := as_Employee emp in
    mkApp
      (FormGroup.reset (form st)
         {| FormValue.name := Employee.name emp;
            FormValue.phone := Employee.phone emp;
            FormValue.email := default EmptyString (Employee.email emp);
            FormValue.nid := Employee.nid emp;
            FormValue.dob := Employee.dob emp;
            FormValue.address := Employee.address emp;
            FormValue.qualification := Employee.qualification emp;
            FormValue.religion := default EmptyString (Employee.religion emp);
            FormValue.experience := Employee.experience emp;
            FormValue.lastWorkPlace := default EmptyString (Employee.lastWorkPlace emp);
            FormValue.salary := Employee.salary emp |})
      (employees st)
      (Some index)
      (Employee.photoDataUrl emp)
      (Employee.documents emp)
      (localStorage st).

Definition deleteEmployee (st : App) (index : Z) : App :=
  let list := splice (employees st) index 1 in
  let st := saveEmployees (with_employees st list) in
  if decide (editingIndex st = Some index) then resetForm st else st.

(** [isEditing = computed(() => this.editingIndex() !== null)] *)
Definition isEditing (st : App) : bool :=
  match editingIndex st with
  | Some _ => true
  | None => false
  end.

Section Component.

(** The e-mail format of [Validators.email]. *)
Variable email_format : string -> bool.

(** The validity of the form under the validators of [ngOnInit]. *)
Definition valid (v : FormValue.t) : bool :=
  Validators.required (FormValue.name v) && Validators.maxLength 100 (FormValue.name v)
  && Validators.required (FormValue.phone v) && Validators.pattern_phone (FormValue.phone v)
  && Validators.email email_format (FormValue.email v)
  && Validators.required (FormValue.nid v) && Validators.maxLength 30 (FormValue.nid v)
  && Validators.required (FormValue.dob v)
  && Validators.required (FormValue.address v) && Validators.maxLength 250 (FormValue.address v)
  && Validators.required (FormValue.qualification v)
  && Validators.maxLength 120 (FormValue.qualification v)
  && Validators.min 0 (FormValue.experience v)
  && Validators.min 0 (FormValue.salary v).

(** [form.invalid] *)
Definition invalid (f : FormGroup.t) : bool := negb (valid (FormGroup.value f)).

Definition addEmployee (st : App) : App :=
  if invalid (form st) then with_form st (FormGroup.markAllAsTouched (form st))
  else
    let employee := merge_record (FormGroup.value (form st)) (photoPreview st) (docs st) in
    let st := with_employees st (Employee_to_value employee :: employees st) in
    let st := saveEmployees st in
    resetForm st.

Definition updateEmployee (st : App) : App :=
  if invalid (form st) then with_form st (FormGroup.markAllAsTouched (form st))
  else
    match editingIndex st with
    | None => st
    | Some idx =>
      if idx <? 0 then st
      else
        let updated := merge_record (FormGroup.value (form st)) (photoPreview st) (docs st) in
        let list := array_set (employees st) (Z.to_nat idx) (Employee_to_value updated) in
        let st := with_employees st list in
        let st := saveEmployees st in
        resetForm st
    end.

(** The component before [ngOnInit], over a given [localStorage]. *)
Definition new_App (ls : gmap string string) : App :=
  mkApp (FormGroup.mk blank ∅) [] None None [] ls.

Definition ngOnInit (st : App) : App :=
  loadEmployees (with_form st (FormGroup.mk blank ∅)).

End Component.

(** ** The helpers as the specification words them *)

(** The tokens of a string: the maximal runs of characters that are not
    separators ([cur] is the run being read). *)
Fixpoint tokens (sep : ascii -> bool) (cur : string) (s : string) : list string :=
  match s with
  | EmptyString =>
    match cur with
    | EmptyString => []
    | String _ _ => [cur]
    end
  | String c r =>
    if sep c then
      match cur with
      | EmptyString => tokens sep EmptyString r
      | String _ _ => cur :: tokens sep EmptyString r
      end
    else tokens sep (cur +:+ String c EmptyString) r
  end.

(** The capital of a letter, read off the two alphabets; any other
    character is its own capital. *)
Definition small_letters : string := "abcdefghijklmnopqrstuvwxyz".
Definition capital_letters : string := "ABCDEFGHIJKLMNOPQRSTUVWXYZ".

Fixpoint capital_in (small capitals : string) (c : ascii) : ascii :=
  match small, capitals with
  | String l small', String u capitals' =>
    if Ascii.eqb c l then u else capital_in small' capitals' c
  | _, _ => c
  end.

Definition capital (c : ascii) : ascii := capital_in small_letters capital_letters c.

Definition first_upper (tok : string) : string :=
  match tok with
  | EmptyString => EmptyString
  | String c _ => String (capital c) EmptyString
  end.

(** A string of ASCII characters: every code unit is below 128. *)
Fixpoint is_ascii (s : string) : bool :=
  match s with
  | EmptyString => true
  | String c r => (nat_of_ascii c <? 128)%nat && is_ascii r
  end.

(** "Split on [sep], drop empty tokens, take the first two tokens, take the
    first character of each, uppercase, concatenate." *)
Definition initials_by (sep : ascii -> bool) (name : string) : string :=
  String.concat EmptyString (map first_upper (take 2 (tokens sep EmptyString name))).


Definition is_space (c : ascii) : bool := Ascii.eqb c " ".


(** The largest unit among B, KB, MB, GB, TB that does not exceed [n]. *)
Definition unit_index (n : Z) : nat :=
  if 1024 ^ 4 <=? n then 4
  else if 1024 ^ 3 <=? n then 3
  else if 1024 ^ 2 <=? n then 2
  else if 1024 <=? n then 1
  else 0.

(** "0 decimal places if the scaled value is >= 10 or the unit is bytes,
    else 1 decimal place." *)
Definition decimal_places (n : Z) (i : nat) : nat :=
  if (10 * 1024 ^ Z.of_nat i <=? n) || (i =? 0)%nat then 0 else 1.

Definition formatBytes_spec (n : Z) : string :=
  if n =? 0 then "0 B"
  else
    let i := unit_index n in
    toFixed (n # Z.to_pos (1024 ^ Z.of_nat i)) (decimal_places n i)
      +:+ " " +:+ nth i sizes EmptyString.

(** ** Values that [JSON.stringify] and [JSON.parse] carry unchanged *)

(** A key that is not an array index keeps its place of insertion. *)
Definition plain_key (k : string) : bool :=
  match array_index k with
  | Some _ => false
  | None => true
  end.

Fixpoint distinct (ks : list string) : bool :=
  match ks with
  | [] => true
  | k :: ks' => negb (existsb (String.eqb k) ks') && distinct ks'
  end.

(** No [undefined] (and so no hole) anywhere, and every object has
    distinct keys none of which is an array index. *)
Fixpoint storable (v : value) : bool :=
  match v with
  | VUndefined => false
  | VNull | VBool _ | VNum _ | VStr _ => true
  | VArr items => forallb storable items
  | VObj members =>
    forallb plain_key (map fst members) && distinct (map fst members)
    && (fix go (ms : list (string * value)) : bool :=
          match ms with
          | [] => true
          | (_, v) :: ms' => storable v && go ms'
          end) members
  end.

(** ** Sample data *)

Definition any_email (s : string) : bool := true.

Definition jane : FormValue.t :=
  {| FormValue.name := "Jane Doe";
     FormValue.phone := "1234567890";
     FormValue.email := EmptyString;
     FormValue.nid := "N-1";
     FormValue.dob := "1990-01-01";
     FormValue.address := "1 Main Street";
     FormValue.qualification := "BSc";
     FormValue.religion := EmptyString;
     FormValue.experience := 3;
     FormValue.lastWorkPlace := "Acme";
     FormValue.salary := 1000 |}.

Definition john : FormValue.t :=
  {| FormValue.name := "John Roe";
     FormValue.phone := "12345678901";
     FormValue.email := EmptyString;
     FormValue.nid := "N-2";
     FormValue.dob := "1985-05-05";
     FormValue.address := "2 Side Street";
     FormValue.qualification := "MSc";
     FormValue.religion := EmptyString;
     FormValue.experience := 7;
     FormValue.lastWorkPlace := EmptyString;
     FormValue.salary := 2000 |}.

(** A phone number of five digits: rejected by the phone pattern. *)
Definition short_phone : FormValue.t :=
  {| FormValue.name := "Jane Doe";
     FormValue.phone := "12345";
     FormValue.email := EmptyString;
     FormValue.nid := "N-1";
     FormValue.dob := "1990-01-01";
     FormValue.address := "1 Main Street";
     FormValue.qualification := "BSc";
     FormValue.religion := EmptyString;
     FormValue.experience := 3;
     FormValue.lastWorkPlace := "Acme";
     FormValue.salary := 1000 |}.

Definition cv : DocInfo.t := DocInfo.mk "cv.pdf" 1536.

Definition jane_record : value := Employee_to_value (merge_record jane None [cv]).
Definition john_record : value := Employee_to_value (merge_record john (Some "data:image/png;base64,AAAA") []).

(** Two stored records, nothing being edited, [form] filled in. *)
Definition two_records (v : FormValue.t) (editing : option Z) : App :=
  mkApp (FormGroup.mk v ∅) [jane_record; john_record] editing None [cv] ∅.

(** The user's steps that leave a stale edit target: on a fresh component
    save Jane, save John (the list is [John; Jane]), edit the record at
    index 1 (the form now holds Jane's values), delete the record at
    index 0. *)
Definition fill (st : App) (v : FormValue.t) : App := with_form st (FormGroup.mk v ∅).

Definition stale_edit_target : App :=
  let st := ngOnInit (new_App ∅) in
  let st := addEmployee any_email (fill st jane) in
  let st := addEmployee any_email (fill st john) in
  let st := editEmployee st 1 in
  deleteEmployee st 0.

(** ** Notions used in the proofs *)

(** One member of an object, as [JSON.stringify] writes it. *)
Definition serialize_member (m : string * value) : string :=
  QuoteJSONString (fst m) +:+ String ":" (serialize (snd m)).

(** What may follow a value in a JSON text: nothing, a comma, or a
    closing bracket or brace. *)
Definition delimited (rest : string) : bool :=
  match rest with
  | EmptyString => true
  | String c _ => Ascii.eqb c "," || Ascii.eqb c "]" || Ascii.eqb c "}"
  end.

Definition not_digit_first (rest : string) : Prop :=
  match rest with
  | EmptyString => True
  | String c _ => is_digit c = false
  end.

(** The fuel that reading a value back takes. *)
Fixpoint weight (v : value) : nat :=
  match v with
  | VArr items => S (list_sum (map (fun x => S (weight x)) items))
  | VObj members => S (list_sum (map (fun m => S (weight (snd m))) members))
  | _ => 1
  end.

(** The first character of a serialized value: not white space, and not
    a closing bracket or brace. *)
Definition starts_value (s : string) : Prop :=
  match s with
  | EmptyString => False
  | String c _ =>
    is_ws c = false /\ Ascii.eqb c "]" = false /\ Ascii.eqb c "}" = false
  end.

(** The reader gives [v] back from its serialization, whatever delimited
    text follows, as soon as the fuel covers the weight of [v]. *)
Definition round_trips (v : value) : Prop :=
  forall fuel rest, (weight v <= fuel)%nat -> delimited rest = true ->
    parse_value fuel (serialize v +:+ rest) = Some (v, rest).

(** The token being read, put in front of what [split] returns. *)
Definition prepend (cur : string) (toks : list string) : list string :=
  match toks with
  | tok :: toks' => (cur +:+ tok) :: toks'
  | [] => [cur]
  end.

(** A text with an apostrophe wherever the JSON text has a double quote. *)
Fixpoint dq (s : string) : string :=
  match s with
  | EmptyString => EmptyString
  | String c r => String (if Ascii.eqb c "'" then quote else c) (dq r)
  end.

(** A component whose storage holds a list of two elements, a record and
    [null], written with white space. *)
Definition stored_list : App :=
  mkApp (FormGroup.mk blank ∅) [john_record] None None []
        {[LS_KEY := dq "[ {'name': 'Jane Doe', 'salary': 1000, 'documents': []} , null ]"]}.

(** A valid form with a photo and a document staged, over one stored
    record; [editing] is the edit target. *)
Definition staged (editing : option Z) : App :=
  mkApp (FormGroup.mk jane ∅) [john_record] editing
        (Some "data:image/png;base64,AAAA") [cv] ∅.






(** A component whose stored text is not JSON. *)
Definition corrupted : App :=
  mkApp (FormGroup.mk blank ∅) [] None None [] {[LS_KEY := "{oops"]}.

(** ** Runs of the component *)

(** What can happen to the component: the user fills the form in (the
    binding of the controls to [form]), and the event handlers. *)
Inductive action : Type :=
| Input (v : FormValue.t)
| PhotoLoaded (result : string)
| RemovePhoto
| DocsSelected (files : list DocInfo.t)
| RemoveDoc (index : Z)
| Add
| Update
| Edit (index : Z)
| Delete (index : Z)
| Reset.

(** The controls take the values the user types; typing marks nothing
    as touched. *)
Definition input (st : App) (v : FormValue.t) : App :=
  with_form st (FormGroup.mk v (FormGroup.touched (form st))).

Definition step (email_format : string -> bool) (st : App) (a : action) : App :=
  match a with
  | Input v => input st v
  | PhotoLoaded result => onPhotoLoaded st result
  | RemovePhoto => removePhoto st
  | DocsSelected files => onDocsSelected st files
  | RemoveDoc index => removeDoc st index
  | Add => addEmployee email_format st
  | Update => updateEmployee email_format st
  | Edit index => editEmployee st index
  | Delete index => deleteEmployee st index
  | Reset => resetForm st
  end.

Definition run (email_format : string -> bool) (st : App) (actions : list action) : App :=
  foldl (step email_format) st actions.

(** The actions on the draft, as opposed to the three that save. *)
Definition draft_action (a : action) : bool :=
  match a with
  | Add | Update | Delete _ => false
  | _ => true
  end.

(** The stored text is the record list as [saveEmployees] writes it. *)
Definition written (st : App) : Prop :=
  localStorage st !! LS_KEY = Some (serialize (VArr (employees st))).

(** What a hole is read back as. *)
Definition fill_holes (v : value) : value :=
  match v with
  | VUndefined => VNull
  | _ => v
  end.

Fixpoint all_spaces (s : string) : bool :=
  match s with
  | EmptyString => true
  | String c r => is_space c && all_spaces r
  end.

(** The rules of [ngOnInit], read on the values of a form. *)
Definition constraints (email_format : string -> bool) (v : FormValue.t) : Prop :=
  FormValue.name v <> EmptyString /\ (String.length (FormValue.name v) <= 100)%nat
  /\ Validators.all_digits (FormValue.phone v) = true
  /\ (10 <= String.length (FormValue.phone v) <= 15)%nat
  /\ (FormValue.email v = EmptyString \/ email_format (FormValue.email v) = true)
  /\ FormValue.nid v <> EmptyString /\ (String.length (FormValue.nid v) <= 30)%nat
  /\ FormValue.dob v <> EmptyString
  /\ FormValue.address v <> EmptyString /\ (String.length (FormValue.address v) <= 250)%nat
  /\ FormValue.qualification v <> EmptyString
  /\ (String.length (FormValue.qualification v) <= 120)%nat
  /\ 0 <= FormValue.experience v
  /\ 0 <= FormValue.salary v.

(** The values [editEmployee] puts in the form for a record. *)
Definition form_of_record (e : Employee.t) : FormValue.t :=
  {| FormValue.name := Employee.name e;
     FormValue.phone := Employee.phone e;
     FormValue.email := default EmptyString (Employee.email e);
     FormValue.nid := Employee.nid e;
     FormValue.dob := Employee.dob e;
     FormValue.address := Employee.address e;
     FormValue.qualification := Employee.qualification e;
     FormValue.religion := default EmptyString (Employee.religion e);
     FormValue.experience := Employee.experience e;
     FormValue.lastWorkPlace := default EmptyString (Employee.lastWorkPlace e);
     FormValue.salary := Employee.salary e |}.

(** A record list with a hole between two records, as an update past
    the end leaves it. *)
Definition holed : App :=
  mkApp (FormGroup.mk blank ∅) [jane_record; VUndefined; john_record] None None [] ∅.

(** A short session: a photo is read, two documents are staged, one is
    taken back, the record at index 1 is loaded into the form. *)
Definition draft_session : list action :=
  [PhotoLoaded "data:image/png;base64,AAAA"; DocsSelected [cv; cv]; RemoveDoc 0; Edit 1].


(** * Verified properties *)

(** ** Arrays *)

Lemma splice_one_in_range {A} (a : list A) (i : Z) :
  0 <= i < Z.of_nat (length a) -> splice a i 1 = delete (Z.to_nat i) a.
Proof.
  intros Hi. unfold splice.
  replace (i <? 0) with false by (symmetry; apply Z.ltb_ge; lia).
  rewrite Z.min_l by lia.
  replace (Z.min (Z.max 1 0) (Z.of_nat (length a) - i)) with 1 by lia.
  rewrite delete_take_drop. do 2 f_equal. lia.
Qed.

Lemma splice_one_past_end {A} (a : list A) (i : Z) :
  Z.of_nat (length a) <= i -> splice a i 1 = a.
Proof.
  intros Hi. unfold splice.
  replace (i <? 0) with false by (symmetry; apply Z.ltb_ge; lia).
  rewrite Z.min_r by lia.
  replace (Z.min (Z.max 1 0) (Z.of_nat (length a) - Z.of_nat (length a))) with 0 by lia.
  rewrite Z.add_0_r, Nat2Z.id, take_ge, drop_ge by lia.
  apply app_nil_r.
Qed.

(** A negative index counts back from the end of the array. *)
Lemma splice_one_negative {A} (a : list A) (i : Z) :
  - Z.of_nat (length a) <= i < 0 ->
  splice a i 1 = delete (Z.to_nat (Z.of_nat (length a) + i)) a.
Proof.
  intros Hi. unfold splice.
  replace (i <? 0) with true by (symmetry; apply Z.ltb_lt; lia).
  rewrite Z.max_l by lia.
  replace (Z.min (Z.max 1 0) (Z.of_nat (length a) - (Z.of_nat (length a) + i))) with 1 by lia.
  rewrite delete_take_drop. do 2 f_equal. lia.
Qed.

Lemma array_get_out_of_range (a : list value) (i : Z) :
  i < 0 \/ Z.of_nat (length a) <= i -> array_get a i = VUndefined.
Proof.
  intros Hi. unfold array_get.
  destruct (i <? 0) eqn:Hneg; [done|].
  apply Z.ltb_ge in Hneg.
  rewrite lookup_ge_None_2; [done | lia].
Qed.

Lemma array_set_in_range (a : list value) (i : nat) (v : value) :
  (i < length a)%nat -> array_set a i v = <[i := v]> a.
Proof. intros Hi. unfold array_set. by rewrite decide_True. Qed.

Lemma array_set_past_end_length (a : list value) (i : nat) (v : value) :
  (length a <= i)%nat -> length (array_set a i v) = S i.
Proof.
  intros Hi. unfold array_set. rewrite decide_False by lia.
  rewrite !length_app, length_replicate. simpl. lia.
Qed.

Section Verified.

Variable email_format : string -> bool.

Implicit Type st : App.

(** ** Create *)

(** C3: a valid submission with no edit target puts a new record at
    position 0: the object whose members are the eleven form values, the
    photo preview ([null] when there is none) and the staged documents
    (name and size of each); the list is one longer and every stored
    record moves one position up, in the same order. *)
Theorem C3_create_prepends (st : App) :
  invalid email_format (form st) = false ->
  editingIndex st = None ->
  let v := FormGroup.value (form st) in
  let record :=
    VObj [("name", VStr (FormValue.name v));
          ("phone", VStr (FormValue.phone v));
          ("email", VStr (FormValue.email v));
          ("nid", VStr (FormValue.nid v));
          ("dob", VStr (FormValue.dob v));
          ("address", VStr (FormValue.address v));
          ("qualification", VStr (FormValue.qualification v));
          ("religion", VStr (FormValue.religion v));
          ("experience", VNum (FormValue.experience v));
          ("lastWorkPlace", VStr (FormValue.lastWorkPlace v));
          ("salary", VNum (FormValue.salary v));
          ("photoDataUrl", match photoPreview st with
                           | Some url => VStr url
                           | None => VNull
                           end);
          ("documents",
           VArr (map (fun d => VObj [("name", VStr (DocInfo.name d));
                                     ("size", VNum (DocInfo.size d))])
                     (docs st)))] in
  employees (addEmployee email_format st) = record :: employees st
  /\ length (employees (addEmployee email_format st)) = S (length (employees st))
  /\ employees (addEmployee email_format st) !! 0%nat = Some record
  /\ forall j : nat, employees (addEmployee email_format st) !! S j = employees st !! j.
Proof.
  intros Hvalid _ v record. unfold addEmployee. rewrite Hvalid. simpl.
  repeat split.
Qed.

(** ** Update *)

(** A valid submission whose edit target is in range replaces that record
    and keeps the length and every other record. *)
Lemma updateEmployee_in_range (st : App) (i : Z) :
  invalid email_format (form st) = false ->
  editingIndex st = Some i ->
  0 <= i < Z.of_nat (length (employees st)) ->
  let record :=
    Employee_to_value (merge_record (FormGroup.value (form st)) (photoPreview st) (docs st)) in
  employees (updateEmployee email_format st) = <[Z.to_nat i := record]> (employees st)
  /\ length (employees (updateEmployee email_format st)) = length (employees st)
  /\ employees (updateEmployee email_format st) !! Z.to_nat i = Some record.
Proof.
  intros Hvalid Hedit Hi record. unfold updateEmployee.
  rewrite Hvalid, Hedit.
  replace (i <? 0) with false by (symmetry; apply Z.ltb_ge; lia).
  simpl. rewrite array_set_in_range by lia.
  split; [done|]. split; [apply length_insert|].
  apply list_lookup_insert_eq. lia.
Qed.

(** A negative edit target, or none, is guarded: nothing changes. *)
Lemma updateEmployee_guarded (st : App) :
  invalid email_format (form st) = false ->
  (editingIndex st = None \/ exists i, editingIndex st = Some i /\ i < 0) ->
  updateEmployee email_format st = st.
Proof.
  intros Hvalid Hedit. unfold updateEmployee. rewrite Hvalid.
  destruct Hedit as [-> | (i & -> & Hi)]; [done|].
  by replace (i <? 0) with true by (symmetry; apply Z.ltb_lt; lia).
Qed.

(** An edit target at or past the end is not guarded: the list is
    extended up to that position, with holes in between. *)
Lemma updateEmployee_past_end (st : App) (i : Z) :
  invalid email_format (form st) = false ->
  editingIndex st = Some i ->
  Z.of_nat (length (employees st)) <= i ->
  let record :=
    Employee_to_value (merge_record (FormGroup.value (form st)) (photoPreview st) (docs st)) in
  employees (updateEmployee email_format st)
  = employees st ++ replicate (Z.to_nat i - length (employees st)) VUndefined ++ [record]
  /\ Z.of_nat (length (employees (updateEmployee email_format st))) = i + 1.
Proof.
  intros Hvalid Hedit Hi record. unfold updateEmployee.
  rewrite Hvalid, Hedit.
  replace (i <? 0) with false by (symmetry; apply Z.ltb_ge; lia).
  simpl. split.
  - unfold array_set. by rewrite decide_False by lia.
  - rewrite array_set_past_end_length by lia. lia.
Qed.

(** ** Delete *)

Lemma deleteEmployee_employees st (index : Z) :
  employees (deleteEmployee st index) = splice (employees st) index 1.
Proof. unfold deleteEmployee. by case_decide. Qed.

(** C2 (amended): an index at or past the end of the record list leaves
    the record list as it is. *)
Theorem C2_remove_past_end_unchanged st (index : Z) :
  Z.of_nat (length (employees st)) <= index ->
  employees (deleteEmployee st index) = employees st.
Proof.
  intros Hi. rewrite deleteEmployee_employees. by apply splice_one_past_end.
Qed.

(** A negative index is not guarded either: it deletes the record that
    many positions back from the end. *)
Lemma deleteEmployee_negative st (index : Z) :
  - Z.of_nat (length (employees st)) <= index < 0 ->
  employees (deleteEmployee st index)
  = delete (Z.to_nat (Z.of_nat (length (employees st)) + index)) (employees st).
Proof.
  intros Hi. rewrite deleteEmployee_employees. by apply splice_one_negative.
Qed.

(** C4: deleting an index in range removes exactly the record at that
    index: the records before it stay, the records after it move one
    position down; and when the index is the edit target the draft goes
    back to the new-record state. *)
Theorem C4_delete_in_range st (i : Z) :
  0 <= i < Z.of_nat (length (employees st)) ->
  let st' := deleteEmployee st i in
  S (length (employees st')) = length (employees st)
  /\ (forall j : nat, (j < Z.to_nat i)%nat -> employees st' !! j = employees st !! j)
  /\ (forall j : nat, (Z.to_nat i <= j)%nat -> employees st' !! j = employees st !! S j)
  /\ (editingIndex st = Some i ->
      editingIndex st' = None /\ photoPreview st' = None /\ docs st' = []
      /\ FormGroup.value (form st') = blank).
Proof.
  intros Hi st'. subst st'.
  rewrite deleteEmployee_employees, splice_one_in_range by done.
  repeat split.
  - rewrite length_delete; [lia|]. apply lookup_lt_is_Some_2. lia.
  - intros j Hj. by apply list_lookup_delete_lt.
  - intros j Hj. by apply list_lookup_delete_ge.
  - unfold deleteEmployee. simpl. by rewrite decide_True.
  - unfold deleteEmployee. simpl. by rewrite decide_True.
  - unfold deleteEmployee. simpl. by rewrite decide_True.
  - unfold deleteEmployee. simpl. by rewrite decide_True.
Qed.

(** ** Validation gate *)

(** C5: a submission, create or update, whose form is invalid saves
    nothing: the record list, the storage and the draft are as before, and
    every control is marked as touched. *)
Theorem C5_invalid_submission_blocked st st' :
  invalid email_format (form st) = true ->
  st' = addEmployee email_format st \/ st' = updateEmployee email_format st ->
  employees st' = employees st
  /\ localStorage st' = localStorage st
  /\ editingIndex st' = editingIndex st
  /\ photoPreview st' = photoPreview st
  /\ docs st' = docs st
  /\ FormGroup.value (form st') = FormGroup.value (form st)
  /\ forall c : string, c ∈ control_names -> c ∈ FormGroup.touched (form st').
Proof.
  intros Hinvalid Hst'.
  assert (st' = with_form st (FormGroup.markAllAsTouched (form st))) as ->.
  { destruct Hst' as [-> | ->]; unfold addEmployee, updateEmployee; by rewrite Hinvalid. }
  split_and!; try reflexivity.
  intros c Hc. cbn [with_form form FormGroup.markAllAsTouched FormGroup.touched].
  by apply elem_of_list_to_set.
Qed.

(** ** Start editing *)

(** C10: starting to edit an index outside the record list changes
    nothing: not the form, the photo preview, the staged documents, nor
    the edit target. *)
Theorem C10_edit_out_of_range_noop st (index : Z) :
  index < 0 \/ Z.of_nat (length (employees st)) <= index ->
  editEmployee st index = st.
Proof.
  intros Hi. unfold editEmployee. by rewrite array_get_out_of_range.
Qed.

End Verified.

(** ** Loading *)

Lemma JSON_parse_empty : JSON_parse EmptyString = None.
Proof. reflexivity. Qed.

(** C6: whatever is stored under the key and whatever [JSON.parse] does
    with it, [loadEmployees] yields a record list and changes nothing else
    (the [SyntaxError] of [JSON.parse] is caught): the empty list when the
    key is missing, when the text is empty, when [JSON.parse] throws, and
    when it returns something that is not a list; the list that
    [JSON.parse] returns otherwise. *)
Theorem C6_load_falls_back_to_empty (parse : string -> option value) (st : App)
        (raw : option string) :
  localStorage st !! LS_KEY = raw ->
  loadEmployees_with parse st = with_employees st (employees (loadEmployees_with parse st))
  /\ (raw = None -> employees (loadEmployees_with parse st) = [])
  /\ (raw = Some EmptyString -> employees (loadEmployees_with parse st) = [])
  /\ (forall text, raw = Some text -> parse text = None ->
        employees (loadEmployees_with parse st) = [])
  /\ (forall text data, raw = Some text -> parse text = Some data ->
        (forall items, data <> VArr items) -> employees (loadEmployees_with parse st) = [])
  /\ (forall text items, raw = Some text -> text <> EmptyString ->
        parse text = Some (VArr items) ->
        employees (loadEmployees_with parse st) = items).
Proof.
  intros Hraw. unfold loadEmployees_with. rewrite Hraw. split_and!.
  - destruct raw as [text|]; [|done].
    destruct (String.eqb text EmptyString); [done|]. by destruct (parse text).
  - by intros ->.
  - by intros ->.
  - intros text -> Hparse. rewrite Hparse. by destruct (String.eqb text EmptyString).
  - intros text data -> Hparse Hshape. rewrite Hparse.
    destruct (String.eqb text EmptyString); [done|].
    destruct data; try done. by destruct (Hshape items).
  - intros text items -> Htext Hparse.
    destruct (String.eqb_spec text EmptyString) as [-> | _]; [done|].
    by rewrite Hparse.
Qed.

(** ** Initials *)

Lemma append_cons (c : ascii) (a b : string) : String c a +:+ b = String c (a +:+ b).
Proof. reflexivity. Qed.

Lemma append_empty_r (s : string) : s +:+ EmptyString = s.
Proof. induction s as [|c s IH]; [done | by rewrite append_cons, IH]. Qed.

Lemma append_assoc (a b c : string) : (a +:+ b) +:+ c = a +:+ (b +:+ c).
Proof. induction a as [|x a IH]; [done | by rewrite !append_cons, IH]. Qed.

Lemma split_not_nil (sep : ascii) (s : string) : split sep s <> [].
Proof.
  destruct s as [|c r]; simpl; [done|].
  destruct (Ascii.eqb c sep); [done|]. by destruct (split sep r).
Qed.

(** Splitting on a space and dropping the empty tokens leaves the maximal
    runs of characters other than the space. *)
Lemma filter_split_tokens (s cur : string) :
  List.filter nonempty (prepend cur (split " " s)) = tokens is_space cur s.
Proof.
  revert cur. induction s as [|c r IH]; intros cur.
  - cbn. rewrite append_empty_r. by destruct cur.
  - cbn [split tokens]. unfold is_space at 1. destruct (Ascii.eqb c " ") eqn:Hc.
    + cbn [prepend]. rewrite append_empty_r. rewrite <- (IH EmptyString).
      assert (prepend EmptyString (split " " r) = split " " r) as ->.
      { pose proof (split_not_nil " " r). by destruct (split " " r). }
      by destruct cur.
    + rewrite <- IH. pose proof (split_not_nil " " r) as Hne.
      destruct (split " " r) as [|tok toks]; [done|].
      cbn [prepend]. by rewrite append_assoc.
Qed.

Lemma join_concat (toks : list string) : join toks = String.concat EmptyString toks.
Proof.
  induction toks as [|a [|b toks] IH]; [done | apply append_empty_r |].
  change (join (a :: b :: toks)) with (a +:+ join (b :: toks)). by rewrite IH.
Qed.

Lemma toUpperCase_char_capital (c : ascii) : toUpperCase_char c = capital c.
Proof. destruct c as [[] [] [] [] [] [] [] []]; reflexivity. Qed.

Lemma initials_by_space (name : string) : initials name = initials_by is_space name.
Proof.
  unfold initials, initials_by, slice0.
  assert (or_empty name = name) as ->.
  { unfold or_empty. by destruct (String.eqb_spec name EmptyString) as [-> | _]. }
  rewrite <- filter_split_tokens.
  assert (prepend EmptyString (split " " name) = split " " name) as ->.
  { pose proof (split_not_nil " " name). by destruct (split " " name). }
  rewrite join_concat. f_equal. apply map_ext. intros [|c tok]; [done|].
  cbn. by rewrite toUpperCase_char_capital.
Qed.



(** ** Byte counts *)

Lemma log_argument_exact (n : Z) : ~ (2 ^ 50 - 3 <= n < 2 ^ 50) -> log_argument n = n.
Proof.
  intros Hn. unfold log_argument.
  destruct (Z.leb_spec (2 ^ 50 - 3) n), (Z.ltb_spec n (2 ^ 50)); cbn [andb]; try done.
  by destruct Hn.
Qed.

Lemma floor_log_1024 (n : Z) (i : nat) :
  ~ (2 ^ 50 - 3 <= n < 2 ^ 50) ->
  1024 ^ Z.of_nat i <= n < 1024 ^ (Z.of_nat i + 1) ->
  floor_log 1024 n = Z.of_nat i.
Proof.
  intros Hn [Hlo Hhi]. unfold floor_log. rewrite (log_argument_exact n Hn).
  change (Z.log2 1024) with 10.
  change 1024 with (2 ^ 10) in Hlo, Hhi.
  rewrite <- Z.pow_mul_r in Hlo, Hhi by lia.
  assert (0 < n) as Hpos.
  { eapply Z.lt_le_trans; [|exact Hlo]. apply Z.pow_pos_nonneg; lia. }
  apply Z.log2_le_pow2 in Hlo; [|done].
  apply Z.log2_lt_pow2 in Hhi; [|done].
  symmetry. apply (Z.div_unique _ _ _ (Z.log2 n - 10 * Z.of_nat i)); lia.
Qed.

Lemma unit_index_bounds (n : Z) :
  0 < n < 1024 ^ 5 ->
  1024 ^ Z.of_nat (unit_index n) <= n < 1024 ^ (Z.of_nat (unit_index n) + 1).
Proof.
  intros Hn. unfold unit_index.
  repeat match goal with
         | |- context [?a <=? ?b] => destruct (Z.leb_spec a b)
         end; cbn; lia.
Qed.

Lemma Qdiv_inject (n : Z) (p : positive) :
  (inject_Z n / inject_Z (Zpos p))%Q = (n * 1 # 1 * p).
Proof. reflexivity. Qed.

Lemma formatBytes_refines (n : Z) :
  0 <= n < 1024 ^ 5 - 3 -> formatBytes n = formatBytes_spec n.
Proof.
  intros Hn. change (1024 ^ 5 - 3) with (2 ^ 50 - 3) in Hn.
  assert (~ (2 ^ 50 - 3 <= n < 2 ^ 50)) as Hwindow by lia.
  assert (0 <= n < 1024 ^ 5) as Hrange by (change (1024 ^ 5) with (2 ^ 50 - 3 + 3); lia).
  clear Hn. rename Hrange into Hn.
  unfold formatBytes, formatBytes_spec.
  destruct (Z.eqb_spec n 0) as [-> | Hne]; [done|].
  replace (n <? 0) with false by (symmetry; apply Z.ltb_ge; lia).
  cbv zeta.
  rewrite (floor_log_1024 n (unit_index n) Hwindow) by (apply unit_index_bounds; lia).
  rewrite Nat2Z.id.
  assert (unit_index n < 5)%nat as Hi.
  { unfold unit_index. repeat case_match; lia. }
  generalize dependent (unit_index n). intros i Hi.
  assert (forall p : positive,
            Qle_bool 10 (inject_Z n / inject_Z (Zpos p)) = (10 * Zpos p <=? n)) as Hle.
  { intros p. rewrite Qdiv_inject. unfold Qle_bool. cbn [Qnum Qden].
    by rewrite Pos.mul_1_l, !Z.mul_1_r. }
  assert (forall (p : positive) d,
            toFixed (inject_Z n / inject_Z (Zpos p)) d = toFixed (n # p) d) as Hfix.
  { intros p d. by rewrite Qdiv_inject, Pos.mul_1_l, Z.mul_1_r. }
  unfold decimal_places.
  do 5 (destruct i as [|i]; [cbn [Z.of_nat Pos.of_succ_nat Pos.succ];
                             match goal with
                             | |- context [Z.pow ?a ?b] =>
                               let v := eval vm_compute in (Z.pow a b) in
                               change (Z.pow a b) with v
                             end; rewrite Hle, Hfix; reflexivity |]).
  lia.
Qed.

(** C8 (amended): for a byte count below 1024^5 - 3, [formatBytes] renders
    the count scaled by the largest unit among B, KB, MB, GB, TB that does
    not exceed it, with no decimal when the scaled value is at least 10 or
    the unit is B and with one decimal otherwise; 0 gives ["0 B"], 1024
    gives ["1.0 KB"], 1536 gives ["1.5 KB"] and 10485760 gives ["10 MB"]. *)
Theorem C8_formatBytes_up_to_terabytes (n : Z) :
  0 <= n < 1024 ^ 5 - 3 ->
  formatBytes n = formatBytes_spec n
  /\ (0 < n -> 1024 ^ Z.of_nat (unit_index n) <= n < 1024 ^ (Z.of_nat (unit_index n) + 1))
  /\ formatBytes 0 = "0 B"
  /\ formatBytes 1024 = "1.0 KB"
  /\ formatBytes 1536 = "1.5 KB"
  /\ formatBytes 10485760 = "10 MB".
Proof.
  intros Hn. split; [by apply formatBytes_refines|].
  split; [intros Hpos; apply unit_index_bounds;
          change (1024 ^ 5 - 3) with 1125899906842621 in Hn;
          change (1024 ^ 5) with 1125899906842624; lia|].
  by vm_compute.
Qed.

(** The three counts just below 1024^5 are already past the units: the
    logarithm of each is rounded to that of 1024^5, and there is no sixth
    unit to print (the specification's rule gives ["1024 TB"]). *)
Lemma formatBytes_just_below_petabyte :
  formatBytes (1024 ^ 5 - 3) = "1.0 undefined"
  /\ formatBytes (1024 ^ 5 - 2) = "1.0 undefined"
  /\ formatBytes (1024 ^ 5 - 1) = "1.0 undefined"
  /\ formatBytes_spec (1024 ^ 5 - 1) = "1024 TB"
  /\ formatBytes (1024 ^ 5 - 4) = "1024 TB".
Proof. by vm_compute. Qed.

(** The units stop at TB: from 1024^5 on there is no unit to print. *)
Lemma formatBytes_past_terabytes : formatBytes (2 ^ 52) = "4.0 undefined".
Proof. by vm_compute. Qed.

(** ** JSON: writing, then reading *)

Lemma value_induction (P : value -> Prop) :
  P VUndefined -> P VNull -> (forall b, P (VBool b)) -> (forall n, P (VNum n)) ->
  (forall s, P (VStr s)) ->
  (forall items, Forall P items -> P (VArr items)) ->
  (forall members, Forall (fun m => P (snd m)) members -> P (VObj members)) ->
  forall v, P v.
Proof.
  intros Hu Hn Hb Hz Hs Ha Ho. fix IH 1. intros [| |b|n|s|items|members].
  - exact Hu.
  - exact Hn.
  - apply Hb.
  - apply Hz.
  - apply Hs.
  - apply Ha. induction items as [|v items IHitems]; constructor; [apply IH | exact IHitems].
  - apply Ho. induction members as [|[k v] members IHm]; constructor; [apply IH | exact IHm].
Qed.

Lemma serialize_VObj (members : list (string * value)) :
  Forall (fun m => snd m <> VUndefined) members ->
  serialize (VObj members)
  = String "{" (join_comma (map serialize_member members) +:+ "}").
Proof.
  intros Hdef. cbn [serialize]. do 3 f_equal.
  induction Hdef as [|[k v] ms Hv _ IH]; [done|].
  cbn [map]. rewrite <- IH. simpl in Hv. by destruct v.
Qed.

Lemma parse_string_quote_char (c : ascii) (tail : string) :
  parse_string (quote_char c +:+ tail) = cons_char c (parse_string tail).
Proof. destruct c as [[] [] [] [] [] [] [] []]; reflexivity. Qed.

Lemma parse_string_quote_body (s rest : string) :
  parse_string (quote_body s +:+ String quote rest) = Some (s, rest).
Proof.
  induction s as [|c s IH].
  - reflexivity.
  - cbn [quote_body]. rewrite append_assoc, parse_string_quote_char, IH. reflexivity.
Qed.

Lemma to_uint_normal (n : N) : N.to_uint n = unorm (N.to_uint n).
Proof. by rewrite <- DecimalN.Unsigned.to_of, DecimalN.Unsigned.of_to. Qed.

Lemma to_uint_nonnil (n : N) : N.to_uint n <> Nil.
Proof. rewrite to_uint_normal. apply unorm_nonnil. Qed.

Lemma to_uint_leading_zero (n : N) (u : uint) : N.to_uint n = D0 u -> u = Nil.
Proof.
  rewrite to_uint_normal. unfold unorm.
  destruct (nzhead (N.to_uint n)) eqn:Hhead; try done.
  - by intros [= <-].
  - by destruct (nzhead_nonzero _ _ Hhead).
Qed.

Lemma N_to_string_digits (n : N) : N_to_string n = NilEmpty.string_of_uint (N.to_uint n).
Proof.
  unfold N_to_string, NilZero.string_of_uint.
  pose proof (to_uint_nonnil n). by destruct (N.to_uint n).
Qed.

Lemma span_digits_uint (u : uint) (rest : string) :
  not_digit_first rest ->
  span_digits (NilEmpty.string_of_uint u +:+ rest) = (NilEmpty.string_of_uint u, rest).
Proof.
  intros Hrest. induction u as [|u IH|u IH|u IH|u IH|u IH|u IH|u IH|u IH|u IH|u IH];
    try (cbn [NilEmpty.string_of_uint]; rewrite append_cons; cbn [span_digits];
         rewrite IH; reflexivity).
  change (span_digits rest = (EmptyString, rest)).
  destruct rest as [|c r]; [done|]. cbn [span_digits]. cbn in Hrest. by rewrite Hrest.
Qed.

Lemma delimited_not_digit (rest : string) : delimited rest = true -> not_digit_first rest.
Proof.
  destruct rest as [|c r]; [done|]. cbn.
  destruct c as [[] [] [] [] [] [] [] []]; by vm_compute.
Qed.

Lemma delimited_no_fraction (rest : string) :
  delimited rest = true -> starts_fraction_or_exponent rest = false.
Proof.
  destruct rest as [|c r]; [done|]. cbn.
  destruct c as [[] [] [] [] [] [] [] []]; by vm_compute.
Qed.

Lemma parse_number_digits (negative : bool) (m : N) (rest : string) :
  delimited rest = true ->
  parse_number ((if negative then String "-" (N_to_string m) else N_to_string m) +:+ rest)
  = Some (if negative then - Z.of_N m else Z.of_N m, rest).
Proof.
  intros Hrest. rewrite N_to_string_digits.
  pose proof (to_uint_nonnil m) as Hnil.
  pose proof (to_uint_leading_zero m) as Hzero.
  pose proof (DecimalN.Unsigned.of_to m) as Hof.
  pose proof (NilEmpty.usu (N.to_uint m)) as Husu.
  pose proof (span_digits_uint (N.to_uint m) rest (delimited_not_digit _ Hrest)) as Hspan.
  pose proof (delimited_no_fraction _ Hrest) as Hfrac.
  unfold parse_number.
  assert (exists c s, NilEmpty.string_of_uint (N.to_uint m) = String c s
                      /\ Ascii.eqb c "-" = false
                      /\ (Ascii.eqb c "0" && negb (String.eqb s EmptyString) = false)) as (c & s & Hs & Hminus & Hlead).
  { destruct (N.to_uint m) as [|u|u|u|u|u|u|u|u|u|u]; try done;
      try (eexists _, _; split; [reflexivity|]; split; reflexivity).
    rewrite (Hzero u eq_refl). eexists _, _. split; [reflexivity|]. split; reflexivity. }
  destruct negative.
  - rewrite append_cons. rewrite Ascii.eqb_refl. cbv beta iota zeta.
    rewrite Hspan, Hs. cbv beta iota zeta.
    rewrite Hlead, Hfrac, <- Hs, Husu, Hof. reflexivity.
  - rewrite Hs, append_cons, Hminus, <- append_cons, <- Hs. cbv beta iota zeta.
    rewrite Hspan, Hs. cbv beta iota zeta.
    rewrite Hlead, Hfrac, <- Hs, Husu, Hof. reflexivity.
Qed.

Lemma parse_number_Z_to_string (n : Z) (rest : string) :
  delimited rest = true ->
  parse_number (Z_to_string n +:+ rest) = Some (n, rest).
Proof.
  intros Hrest. unfold Z_to_string. destruct (Z.ltb_spec n 0).
  - rewrite (parse_number_digits true _ _ Hrest). do 2 f_equal. lia.
  - rewrite (parse_number_digits false _ _ Hrest). do 2 f_equal. lia.
Qed.

Lemma Z_to_string_first (n : Z) :
  exists c s, Z_to_string n = String c s /\ (is_digit c = true \/ c = "-"%char).
Proof.
  unfold Z_to_string. destruct (n <? 0); [by eexists _, _; split; [|right]|].
  rewrite N_to_string_digits. pose proof (to_uint_nonnil (Z.to_N n)).
  destruct (N.to_uint (Z.to_N n)); try done; eexists _, _; (split; [reflexivity | by left]).
Qed.

Lemma number_first_char (c : ascii) :
  is_digit c = true \/ c = "-"%char ->
  is_ws c = false /\ Ascii.eqb c "[" = false /\ Ascii.eqb c "{" = false
  /\ Ascii.eqb c quote = false /\ Ascii.eqb c "n" = false /\ Ascii.eqb c "t" = false
  /\ Ascii.eqb c "f" = false /\ Ascii.eqb c "]" = false /\ Ascii.eqb c "}" = false.
Proof.
  intros [H | ->]; [|by vm_compute].
  destruct c as [[] [] [] [] [] [] [] []]; try (by vm_compute in H); by vm_compute.
Qed.

Lemma serialize_starts_value (v : value) (tail : string) :
  starts_value (serialize v +:+ tail).
Proof.
  destruct v as [| |[]|n|s|items|members]; try by vm_compute.
  cbn [serialize]. destruct (Z_to_string_first n) as (c & s & -> & Hc).
  rewrite append_cons. cbn. destruct (number_first_char c Hc) as (? & _ & _ & _ & _ & _ & _ & ? & ?).
  done.
Qed.

Lemma skip_ws_starts_value (s : string) : starts_value s -> skip_ws s = s.
Proof. destruct s as [|c r]; [done|]. cbn. by intros [-> _]. Qed.

Lemma parse_elements_round_trip (items : list value) (v : value) :
  Forall round_trips (v :: items) ->
  forall fuel rest,
    (list_sum (map (fun x => S (weight x)) (v :: items)) <= fuel)%nat ->
    parse_elements fuel (join_comma (map serialize (v :: items)) +:+ String "]" rest)
    = Some (v :: items, rest).
Proof.
  revert v. induction items as [|v' items IH]; intros v HF fuel rest Hfuel;
    inversion HF as [|? ? Hv HF']; subst; cbn in Hfuel;
    (destruct fuel as [|fuel]; [lia|]).
  - cbn [map join_comma parse_elements].
    rewrite Hv by (done || lia). reflexivity.
  - change (join_comma (map serialize (v :: v' :: items)))
      with (serialize v +:+ String "," (join_comma (map serialize (v' :: items)))).
    rewrite append_assoc, append_cons. cbn [parse_elements].
    rewrite Hv by (done || lia).
    cbn [skip_ws]. change (is_ws ",") with false. cbv iota.
    change (Ascii.eqb "," ",") with true. cbv iota.
    rewrite IH; [reflexivity | done | cbn; lia].
Qed.

Lemma obj_replace_absent (acc : list (string * value)) (k : string) (v : value) :
  existsb (String.eqb k) (map fst acc) = false -> obj_replace acc k v = None.
Proof.
  induction acc as [|[k' v'] acc IH]; [done|]. cbn. intros H.
  apply orb_false_iff in H as [Hk Hacc].
  by rewrite String.eqb_sym, Hk, IH.
Qed.

Lemma obj_set_fresh (acc : list (string * value)) (k : string) (v : value) :
  existsb (String.eqb k) (map fst acc) = false -> plain_key k = true ->
  obj_set acc k v = acc ++ [(k, v)].
Proof.
  intros Hfresh Hplain. unfold obj_set. rewrite obj_replace_absent by done.
  unfold plain_key in Hplain. by destruct (array_index k).
Qed.

Lemma distinct_app_cons (a : list string) (k : string) (b : list string) :
  distinct (a ++ k :: b) = true ->
  existsb (String.eqb k) a = false /\ distinct ((a ++ [k]) ++ b) = true.
Proof.
  intros H. split; [|by rewrite <- app_assoc].
  induction a as [|x a IH]; [done|].
  cbn in H. apply andb_true_iff in H as [Hx Ha].
  cbn. rewrite (IH Ha), orb_false_r.
  apply negb_true_iff in Hx. rewrite existsb_app in Hx. apply orb_false_iff in Hx as [_ Hx].
  cbn in Hx. apply orb_false_iff in Hx as [Hx _]. by rewrite String.eqb_sym.
Qed.

Lemma parse_members_step (k : string) (v : value) (c : ascii) (tail : string)
      (acc : list (string * value)) (fuel : nat) :
  round_trips v -> (weight v <= fuel)%nat ->
  existsb (String.eqb k) (map fst acc) = false -> plain_key k = true ->
  delimited (String c tail) = true ->
  parse_members (S fuel) (serialize_member (k, v) +:+ String c tail) acc
  = if Ascii.eqb c "," then parse_members fuel tail (acc ++ [(k, v)])
    else if Ascii.eqb c "}" then Some (VObj (acc ++ [(k, v)]), tail)
    else None.
Proof.
  intros Hv Hfuel Hfresh Hplain Hdelim.
  unfold serialize_member, QuoteJSONString. cbn [fst snd].
  repeat (rewrite append_cons || rewrite append_assoc).
  change (EmptyString +:+ ?x) with x.
  cbn [parse_members skip_ws]. change (is_ws quote) with false. cbv iota.
  rewrite Ascii.eqb_refl, parse_string_quote_body.
  cbn [skip_ws]. change (is_ws ":") with false. cbv iota.
  change (Ascii.eqb ":" ":") with true. cbv iota.
  rewrite Hv by done. rewrite obj_set_fresh by done.
  assert (is_ws c = false) as Hws.
  { cbn in Hdelim. destruct c as [[] [] [] [] [] [] [] []]; by vm_compute in Hdelim |- *. }
  cbn [skip_ws]. by rewrite Hws.
Qed.

Lemma parse_members_round_trip (members : list (string * value)) (m : string * value)
      (acc : list (string * value)) :
  Forall (fun m => round_trips (snd m)) (m :: members) ->
  forallb plain_key (map fst (m :: members)) = true ->
  distinct (map fst acc ++ map fst (m :: members)) = true ->
  forall fuel rest,
    (list_sum (map (fun m => S (weight (snd m))) (m :: members)) <= fuel)%nat ->
    parse_members fuel
      (join_comma (map serialize_member (m :: members)) +:+ String "}" rest) acc
    = Some (VObj (acc ++ m :: members), rest).
Proof.
  revert m acc. induction members as [|m' members IH];
    intros [k v] acc HF Hplain Hdist fuel rest Hfuel;
    inversion HF as [|? ? Hv HF']; subst;
    cbn [map fst snd forallb] in Hplain, Hdist, Hv; cbn in Hfuel;
    apply andb_true_iff in Hplain as [Hk Hplain];
    apply distinct_app_cons in Hdist as [Hfresh Hdist];
    (destruct fuel as [|fuel]; [lia|]).
  - cbn [map join_comma].
    rewrite parse_members_step by (done || lia). reflexivity.
  - change (join_comma (map serialize_member ((k, v) :: m' :: members)))
      with (serialize_member (k, v)
            +:+ String "," (join_comma (map serialize_member (m' :: members)))).
    rewrite append_assoc, append_cons.
    rewrite parse_members_step by (done || lia).
    change (Ascii.eqb "," ",") with true. cbv iota.
    rewrite IH; [by rewrite <- app_assoc | done | done | | cbn; lia].
    by rewrite map_app.
Qed.

Lemma storable_VObj (members : list (string * value)) :
  storable (VObj members) = true ->
  forallb plain_key (map fst members) = true
  /\ distinct (map fst members) = true
  /\ Forall (fun m => storable (snd m) = true) members.
Proof.
  cbn [storable]. intros H.
  apply andb_true_iff in H as [H Hall]. apply andb_true_iff in H as [Hplain Hdist].
  split_and!; [done | done |].
  induction members as [|[k v] members IH]; constructor.
  - by apply andb_true_iff in Hall as [? _].
  - apply andb_true_iff in Hall as [_ Hall]. apply IH; [| |done].
    + by apply andb_true_iff in Hplain as [_ ?].
    + by apply andb_true_iff in Hdist as [_ ?].
Qed.

Lemma storable_defined (v : value) : storable v = true -> v <> VUndefined.
Proof. by destruct v. Qed.

Lemma parse_serialize (v : value) : storable v = true -> round_trips v.
Proof.
  induction v as [| |b|n|s|items IH|members IH] using value_induction;
    intros Hst fuel rest Hfuel Hrest; try done;
    (destruct fuel as [|fuel]; [cbn in Hfuel; lia|]).
  - reflexivity.
  - by destruct b.
  - cbn [serialize]. destruct (Z_to_string_first n) as (c & s & Hs & Hc).
    pose proof (parse_number_Z_to_string n rest Hrest) as Hparse.
    rewrite Hs, append_cons in Hparse |- *.
    destruct (number_first_char c Hc) as (Hws & H1 & H2 & H3 & H4 & H5 & H6 & _).
    cbn [parse_value skip_ws]. rewrite Hws, H1, H2, H3, H4, H5, H6, Hparse. reflexivity.
  - cbn [serialize]. unfold QuoteJSONString.
    repeat (rewrite append_cons || rewrite append_assoc).
    change (EmptyString +:+ ?x) with x.
    cbn [parse_value skip_ws]. change (is_ws quote) with false. cbv iota.
    change (Ascii.eqb quote "[") with false. change (Ascii.eqb quote "{") with false.
    cbv iota. rewrite Ascii.eqb_refl, parse_string_quote_body. reflexivity.
  - cbn [serialize]. rewrite append_cons, append_assoc.
    cbn [parse_value skip_ws]. change (is_ws "[") with false. cbv iota.
    change (Ascii.eqb "[" "[") with true. cbv iota.
    destruct items as [|v items]; [reflexivity|].
    cbn [storable] in Hst.
    assert (Forall round_trips (v :: items)) as HF.
    { apply Forall_forall. intros x Hx. rewrite Forall_forall in IH. apply IH; [done|].
      rewrite forallb_forall in Hst. apply Hst. by apply list_elem_of_In. }
    assert (exists tail, join_comma (map serialize (v :: items)) +:+ "]" +:+ rest
                         = serialize v +:+ tail) as [tail Htail].
    { destruct items; [by eexists | eexists; cbn [map join_comma]; by rewrite append_assoc]. }
    pose proof (serialize_starts_value v tail) as Hsv.
    rewrite Htail, (skip_ws_starts_value _ Hsv).
    destruct (serialize v +:+ tail) as [|c r] eqn:Hcr; [done|].
    destruct Hsv as (_ & -> & _). rewrite <- Htail.
    change ("]" +:+ rest) with (String "]" rest).
    rewrite parse_elements_round_trip; [reflexivity | done |]. cbn in Hfuel |- *. lia.
  - apply storable_VObj in Hst as (Hplain & Hdist & Hall).
    rewrite serialize_VObj; [|eapply Forall_impl; [exact Hall | by intros ? ?%storable_defined]].
    rewrite append_cons, append_assoc.
    cbn [parse_value skip_ws]. change (is_ws "{") with false. cbv iota.
    change (Ascii.eqb "{" "[") with false. change (Ascii.eqb "{" "{") with true. cbv iota.
    destruct members as [|[k v] members]; [reflexivity|].
    assert (Forall (fun m => round_trips (snd m)) ((k, v) :: members)) as HF.
    { apply Forall_forall. intros x Hx. rewrite Forall_forall in IH, Hall. by apply IH, Hall. }
    assert (exists tail, join_comma (map serialize_member ((k, v) :: members)) +:+ "}" +:+ rest
                         = String quote tail) as [tail Htail].
    { destruct members; eexists; cbn [map join_comma]; unfold serialize_member, QuoteJSONString;
        cbn [fst snd]; repeat (rewrite append_cons || rewrite append_assoc); reflexivity. }
    rewrite Htail. cbn [skip_ws]. change (is_ws quote) with false. cbv iota.
    change (Ascii.eqb quote "}") with false. cbv iota. rewrite <- Htail.
    change ("}" +:+ rest) with (String "}" rest).
    rewrite (parse_members_round_trip members (k, v) []); [reflexivity | done | done | done |].
    cbn in Hfuel |- *. lia.
Qed.

Lemma length_append (a b : string) :
  String.length (a +:+ b) = (String.length a + String.length b)%nat.
Proof.
  induction a as [|c a IH]; [done|]. rewrite append_cons. cbn [String.length]. by rewrite IH.
Qed.

Lemma length_join_comma (parts : list string) (weights : list nat) :
  Forall2 (fun p w => (w <= String.length p)%nat) parts weights ->
  (list_sum (map S weights) <= S (String.length (join_comma parts)))%nat.
Proof.
  induction 1 as [|p w parts weights Hp Htl IH]; [cbn; lia|].
  destruct parts as [|p' parts].
  - inversion Htl. subst. cbn. lia.
  - change (join_comma (p :: p' :: parts)) with (p +:+ String "," (join_comma (p' :: parts))).
    rewrite length_append.
    change (list_sum (map S (w :: weights))) with (S w + list_sum (map S weights))%nat.
    change (String.length (String "," ?x)) with (S (String.length x)). lia.
Qed.

Lemma weight_le_length (v : value) :
  storable v = true -> (weight v <= String.length (serialize v))%nat.
Proof.
  induction v as [| |b|n|s|items IH|members IH] using value_induction; intros Hst.
  - done.
  - cbn. lia.
  - destruct b; cbn; lia.
  - cbn [serialize weight]. destruct (Z_to_string_first n) as (c & s & -> & _). cbn. lia.
  - cbn. lia.
  - cbn [serialize weight storable] in *. cbn [String.length]. rewrite length_append.
    rewrite <- (map_map weight S).
    etrans; [apply le_n_S, (length_join_comma (map serialize items))|cbn; lia].
    apply Forall2_fmap, Forall_Forall2_diag.
    rewrite Forall_forall in IH |- *. intros x Hx. apply IH; [done|].
    rewrite forallb_forall in Hst. apply Hst. by apply list_elem_of_In.
  - apply storable_VObj in Hst as (_ & _ & Hall).
    rewrite serialize_VObj; [|eapply Forall_impl; [exact Hall | by intros ? ?%storable_defined]].
    cbn [weight String.length]. rewrite length_append.
    rewrite <- (map_map (fun m => weight (snd m)) S).
    etrans; [apply le_n_S, (length_join_comma (map serialize_member members))|cbn; lia].
    apply Forall2_fmap, Forall_Forall2_diag.
    rewrite Forall_forall in IH, Hall |- *. intros [k x] Hx.
    unfold serialize_member. rewrite length_append. cbn [fst snd String.length].
    specialize (IH _ Hx (Hall _ Hx)). cbn in IH. lia.
Qed.

(** Parsing what [JSON.stringify] wrote gives the value back. *)
Lemma JSON_parse_serialize (v : value) :
  storable v = true -> JSON_parse (serialize v) = Some v.
Proof.
  intros Hst. unfold JSON_parse.
  pose proof (parse_serialize v Hst (S (String.length (serialize v))) EmptyString) as H.
  rewrite append_empty_r in H. rewrite H; [done | | done].
  pose proof (weight_le_length v Hst). lia.
Qed.

Lemma storable_documents (documents : list DocInfo.t) :
  forallb storable (map DocInfo.to_value documents) = true.
Proof. induction documents as [|d documents IH]; [done|]. cbn [map forallb]. by rewrite IH. Qed.

Lemma storable_Employee (e : Employee.t) : storable (Employee_to_value e) = true.
Proof.
  destruct e as [? ? [?|] ? ? ? ? [?|] ? [?|] ? [?|] documents];
    unfold Employee_to_value; cbn [storable Employee.documents];
    by rewrite storable_documents.
Qed.

(** ** Save, then load *)



Lemma as_documents_to_value (documents : list DocInfo.t) :
  as_documents (VArr (map DocInfo.to_value documents)) = documents.
Proof.
  cbn [as_documents]. induction documents as [|[name size] documents IH]; [done|].
  cbn [map]. by rewrite IH.
Qed.

(** Read at the types of the interface, a stored record has the fields
    it was made of. *)
Lemma as_Employee_to_value (e : Employee.t) : as_Employee (Employee_to_value e) = e.
Proof.
  destruct e as [? ? [?|] ? ? ? ? [?|] ? [?|] ? [?|] documents];
    unfold as_Employee, Employee_to_value; cbn -[as_documents];
    by rewrite as_documents_to_value.
Qed.


(** A hole does not survive: it is written as [null]. *)
Lemma hole_reloads_as_null (st : App) :
  employees (loadEmployees (saveEmployees (with_employees st [VUndefined]))) = [VNull].
Proof. unfold loadEmployees, loadEmployees_with, saveEmployees. cbn [localStorage with_localStorage]. by rewrite lookup_insert_eq. Qed.

(** ** The claims at concrete inputs *)

Lemma C3_witness :
  invalid any_email (form (staged None)) = false
  /\ editingIndex (staged None) = None
  /\ employees (addEmployee any_email (staged None))
     = [ VObj [("name", VStr "Jane Doe");
           ("phone", VStr "1234567890");
           ("email", VStr EmptyString);
           ("nid", VStr "N-1");
           ("dob", VStr "1990-01-01");
           ("address", VStr "1 Main Street");
           ("qualification", VStr "BSc");
           ("religion", VStr EmptyString);
           ("experience", VNum 3);
           ("lastWorkPlace", VStr "Acme");
           ("salary", VNum 1000);
           ("photoDataUrl", VStr "data:image/png;base64,AAAA");
           ("documents", VArr [VObj [("name", VStr "cv.pdf"); ("size", VNum 1536)]])];
         john_record ].
Proof.
  split; [reflexivity|]. split; [reflexivity|].
  destruct (C3_create_prepends any_email (staged None)) as (Hlist & _);
    [reflexivity | reflexivity |].
  exact Hlist.
Defined.

(** C1 (the code at the failing input): after the steps of
    [stale_edit_target] the form is valid and the edit target is 1 while
    one record is left; the update then does not leave the list alone, it
    appends a second record. *)
Theorem C1_update_past_end_grows_list :
  invalid any_email (form stale_edit_target) = false
  /\ editingIndex stale_edit_target = Some 1
  /\ employees stale_edit_target = [Employee_to_value (merge_record jane None [])]
  /\ employees (updateEmployee any_email stale_edit_target)
     = [Employee_to_value (merge_record jane None []);
        Employee_to_value (merge_record jane None [])].
Proof. vm_compute. repeat split. Qed.

(** C2 (as stated) fails: the index -1 is outside the list, and the last
    record is deleted. *)
Lemma C2_negative_index_deletes :
  ~ (forall (st : App) (index : Z),
        index < 0 \/ Z.of_nat (length (employees st)) <= index ->
        employees (deleteEmployee st index) = employees st).
Proof.
  intros H. specialize (H (two_records jane None) (-1) (or_introl eq_refl)).
  vm_compute in H. discriminate H.
Qed.

Lemma C2_witness :
  Z.of_nat (length (employees (two_records jane None))) <= 2
  /\ employees (deleteEmployee (two_records jane None) 2) = employees (two_records jane None).
Proof.
  split; [simpl; lia|].
  apply (C2_remove_past_end_unchanged (two_records jane None) 2). simpl. lia.
Defined.

Lemma C4_witness :
  0 <= 0 < Z.of_nat (length (employees (two_records jane (Some 0))))
  /\ employees (deleteEmployee (two_records jane (Some 0)) 0) = [john_record]
  /\ editingIndex (deleteEmployee (two_records jane (Some 0)) 0) = None.
Proof.
  split; [simpl; lia|].
  destruct (C4_delete_in_range (two_records jane (Some 0)) 0) as (_ & _ & _ & Hreset);
    [simpl; lia|].
  split; [reflexivity|]. apply Hreset. reflexivity.
Defined.

Lemma C5_witness :
  invalid any_email (form (two_records short_phone None)) = true
  /\ employees (addEmployee any_email (two_records short_phone None)) = [jane_record; john_record]
  /\ forall c : string,
       c ∈ control_names ->
       c ∈ FormGroup.touched (form (addEmployee any_email (two_records short_phone None))).
Proof.
  split; [reflexivity|].
  destruct (C5_invalid_submission_blocked any_email (two_records short_phone None)
              (addEmployee any_email (two_records short_phone None)))
    as (Hemp & _ & _ & _ & _ & _ & Htouched); [reflexivity | by left |].
  split; [exact Hemp | exact Htouched].
Defined.

Lemma C10_witness :
  (2 < 0 \/ Z.of_nat (length (employees (two_records jane None))) <= 2)
  /\ editEmployee (two_records jane None) 2 = two_records jane None.
Proof.
  split; [right; simpl; lia|].
  apply (C10_edit_out_of_range_noop (two_records jane None) 2). right. simpl. lia.
Defined.

Lemma C6_witness :
  (localStorage corrupted !! LS_KEY = Some "{oops"
   /\ employees (loadEmployees corrupted) = [])
  /\ (localStorage stored_list !! LS_KEY
      = Some (dq "[ {'name': 'Jane Doe', 'salary': 1000, 'documents': []} , null ]")
      /\ employees (loadEmployees stored_list)
         = [VObj [("name", VStr "Jane Doe"); ("salary", VNum 1000); ("documents", VArr [])];
            VNull]).
Proof.
  split.
  - split; [reflexivity|].
    destruct (C6_load_falls_back_to_empty JSON_parse corrupted (Some "{oops") eq_refl)
      as (_ & _ & _ & Hfail & _).
    apply (Hfail "{oops"); reflexivity.
  - split; [reflexivity|].
    destruct (C6_load_falls_back_to_empty JSON_parse stored_list _ eq_refl)
      as (_ & _ & _ & _ & _ & Hlist).
    apply (Hlist _ _ eq_refl); [discriminate | reflexivity].
Defined.



(** C8 (as stated) fails: 1024 bytes are written with one decimal. *)
Lemma C8_one_kilobyte_has_a_decimal : formatBytes 1024 <> "1 KB".
Proof. vm_compute. discriminate. Qed.

Lemma C8_witness :
  0 <= 1536 < 1024 ^ 5 - 3
  /\ formatBytes 1536 = formatBytes_spec 1536
  /\ formatBytes 1024 = "1.0 KB".
Proof.
  split; [split; reflexivity || discriminate|].
  destruct (C8_formatBytes_up_to_terabytes 1536) as (Hspec & _ & _ & Hkb & _).
  - split; reflexivity || discriminate.
  - split; [exact Hspec | exact Hkb].
Defined.

(** * Further properties of the component *)

(** ** Editing loads the record *)

Lemma array_get_lookup (a : list value) (i : nat) (v : value) :
  a !! i = Some v -> array_get a (Z.of_nat i) = v.
Proof.
  intros Hi. unfold array_get.
  replace (Z.of_nat i <? 0) with false by (symmetry; apply Z.ltb_ge; lia).
  by rewrite Nat2Z.id, Hi.
Qed.

(** X1: editing an index that holds an employee record puts that record's
    fields in the form (an absent e-mail, religion or last work place as
    the empty string), marks the form untouched, stages the record's photo
    and documents, and makes the index the edit target; the record list
    and the storage stay as they are. *)
Theorem editEmployee_loads_record (st : App) (i : nat) (e : Employee.t) :
  employees st !! i = Some (Employee_to_value e) ->
  editEmployee st (Z.of_nat i)
  = mkApp (FormGroup.mk (form_of_record e) ∅) (employees st) (Some (Z.of_nat i))
          (Employee.photoDataUrl e) (Employee.documents e) (localStorage st).
Proof.
  intros Hi. unfold editEmployee. rewrite (array_get_lookup _ _ _ Hi).
  change (negb (ToBoolean (Employee_to_value e))) with false. cbv iota zeta.
  by rewrite as_Employee_to_value.
Qed.

Section Further.

Variable email_format : string -> bool.

Lemma form_of_merged_record (v : FormValue.t) (photo : option string)
      (documents : list DocInfo.t) :
  form_of_record (merge_record v photo documents) = v.
Proof. by destruct v. Qed.

(** ** Edit, then save unchanged *)

(** X2: loading a record that the form created and saving it unchanged
    leaves the record list as it was. *)
Theorem edit_then_update_keeps_list (st : App) (i : nat) (v : FormValue.t)
        (photo : option string) (documents : list DocInfo.t) :
  employees st !! i = Some (Employee_to_value (merge_record v photo documents)) ->
  valid email_format v = true ->
  employees (updateEmployee email_format (editEmployee st (Z.of_nat i))) = employees st.
Proof.
  intros Hi Hvalid. rewrite (editEmployee_loads_record _ _ _ Hi).
  unfold updateEmployee, invalid.
  cbn [form FormGroup.value editingIndex photoPreview docs employees].
  rewrite form_of_merged_record, Hvalid. cbn [negb].
  replace (Z.of_nat i <? 0) with false by (symmetry; apply Z.ltb_ge; lia).
  cbn [Employee.photoDataUrl Employee.documents merge_record].
  cbn [resetForm saveEmployees with_employees with_localStorage employees].
  rewrite Nat2Z.id, array_set_in_range by (by eapply lookup_lt_Some).
  by apply list_insert_id.
Qed.

(** ** A submission that is accepted *)

Lemma saveEmployees_written (st : App) : written (saveEmployees st).
Proof. unfold written, saveEmployees. cbn [localStorage with_localStorage employees]. apply lookup_insert_eq. Qed.

Lemma resetForm_written (st : App) : written st -> written (resetForm st).
Proof. done. Qed.

(** X3: a submission that is accepted (a valid form; for an update, an
    edit target that is not negative) leaves the draft in the new-record
    state (blank untouched form, no photo, no staged documents, no edit
    target) and the stored text equal to the serialized record list. *)
Theorem accepted_submission_resets_draft (st st' : App) :
  invalid email_format (form st) = false ->
  st' = addEmployee email_format st
  \/ (st' = updateEmployee email_format st /\ exists i, editingIndex st = Some i /\ 0 <= i) ->
  form st' = FormGroup.mk blank ∅
  /\ editingIndex st' = None
  /\ photoPreview st' = None
  /\ docs st' = []
  /\ isEditing st' = false
  /\ written st'.
Proof.
  intros Hvalid [-> | [-> (i & Hedit & Hi)]].
  - unfold addEmployee. rewrite Hvalid. split_and!; try reflexivity.
    apply resetForm_written, saveEmployees_written.
  - unfold updateEmployee. rewrite Hvalid, Hedit.
    replace (i <? 0) with false by (symmetry; apply Z.ltb_ge; lia).
    split_and!; try reflexivity. apply resetForm_written, saveEmployees_written.
Qed.

Lemma blank_invalid (touched : gset string) :
  invalid email_format (FormGroup.mk blank touched) = true.
Proof. reflexivity. Qed.

Lemma addEmployee_blocked (st : App) :
  invalid email_format (form st) = true ->
  addEmployee email_format st = with_form st (FormGroup.markAllAsTouched (form st)).
Proof. intros H. unfold addEmployee. by rewrite H. Qed.

Lemma updateEmployee_blocked (st : App) :
  invalid email_format (form st) = true ->
  updateEmployee email_format st = with_form st (FormGroup.markAllAsTouched (form st)).
Proof. intros H. unfold updateEmployee. by rewrite H. Qed.

(** X4: a form that was just submitted cannot be submitted again: the
    blank form is invalid, so a second create or update right after a
    create changes neither the record list nor the storage. *)
Theorem second_submission_saves_nothing (st : App) :
  employees (addEmployee email_format (addEmployee email_format st))
  = employees (addEmployee email_format st)
  /\ localStorage (addEmployee email_format (addEmployee email_format st))
     = localStorage (addEmployee email_format st)
  /\ employees (updateEmployee email_format (addEmployee email_format st))
     = employees (addEmployee email_format st)
  /\ localStorage (updateEmployee email_format (addEmployee email_format st))
     = localStorage (addEmployee email_format st).
Proof.
  assert (invalid email_format (form (addEmployee email_format st)) = true) as Hinv.
  { unfold addEmployee. destruct (invalid email_format (form st)) eqn:Hst.
    - cbn [form with_form]. unfold invalid in *. exact Hst.
    - apply blank_invalid. }
  rewrite (addEmployee_blocked _ Hinv), (updateEmployee_blocked _ Hinv). by split_and!.
Qed.


(** ** What is stored *)

Lemma written_reopens (st : App) :
  written st -> forallb storable (employees st) = true ->
  employees (ngOnInit (new_App (localStorage st))) = employees st.
Proof.
  intros Hw Hst. unfold ngOnInit, loadEmployees, loadEmployees_with.
  cbn [localStorage with_form new_App]. rewrite Hw.
  change (String.eqb (serialize (VArr (employees st))) EmptyString) with false.
  cbv iota. by rewrite (JSON_parse_serialize (VArr (employees st)) Hst).
Qed.

Lemma deleteEmployee_written (st : App) (index : Z) : written (deleteEmployee st index).
Proof.
  unfold deleteEmployee. case_decide; [apply resetForm_written|]; apply saveEmployees_written.
Qed.

Lemma splice_storable (l : list value) (start deleteCount : Z) :
  forallb storable l = true -> forallb storable (splice l start deleteCount) = true.
Proof.
  intros Hl. unfold splice. rewrite forallb_app. apply andb_true_iff.
  rewrite !forallb_forall in *. split; intros x Hx%list_elem_of_In; apply Hl, list_elem_of_In.
  - by eapply subseteq_take.
  - by eapply subseteq_drop.
Qed.

Lemma insert_storable (l : list value) (i : nat) (v : value) :
  forallb storable l = true -> storable v = true -> forallb storable (<[i := v]> l) = true.
Proof.
  intros Hl Hv. revert i. induction l as [|x l IH]; intros [|i]; try done.
  - cbn in *. apply andb_true_iff in Hl as [_ ->]. by rewrite Hv.
  - cbn in *. apply andb_true_iff in Hl as [-> Hl]. by apply IH.
Qed.

(** X5: after a delete, an accepted create or an accepted update in
    range, a new component started on the storage that was left shows the
    same record list (the list before the operation holding only values
    that JSON carries unchanged). *)
Theorem reopening_shows_what_was_saved (st st' : App) :
  forallb storable (employees st) = true ->
  (exists index, st' = deleteEmployee st index)
  \/ (invalid email_format (form st) = false /\ st' = addEmployee email_format st)
  \/ (invalid email_format (form st) = false
      /\ (exists i, editingIndex st = Some i /\ 0 <= i < Z.of_nat (length (employees st)))
      /\ st' = updateEmployee email_format st) ->
  employees (ngOnInit (new_App (localStorage st'))) = employees st'.
Proof.
  intros Hst [[index ->] | [[Hvalid ->] | (Hvalid & (i & Hedit & Hi) & ->)]].
  - apply written_reopens; [apply deleteEmployee_written|].
    rewrite deleteEmployee_employees. by apply splice_storable.
  - apply written_reopens; [by apply (accepted_submission_resets_draft st); [|left]|].
    unfold addEmployee. rewrite Hvalid. cbn [employees resetForm saveEmployees with_localStorage with_employees forallb].
    by rewrite storable_Employee.
  - apply written_reopens.
    + apply (accepted_submission_resets_draft st); [done|]. right. split; [done|].
      exists i. split; [done | lia].
    + destruct (updateEmployee_in_range email_format st i Hvalid Hedit Hi) as [-> _].
      apply insert_storable; [done | apply storable_Employee].
Qed.

(** ** Invariants of a run *)

Lemma step_written (st : App) (a : action) : written st -> written (step email_format st a).
Proof.
  intros Hw. destruct a as [v|result| |files|index| | |index|index|]; cbn [step]; try done.
  - unfold onDocsSelected. by destruct files.
  - unfold addEmployee. destruct (invalid email_format (form st)); [done|].
    apply resetForm_written, saveEmployees_written.
  - unfold updateEmployee. destruct (invalid email_format (form st)); [done|].
    destruct (editingIndex st) as [idx|]; [|done]. destruct (idx <? 0); [done|].
    apply resetForm_written, saveEmployees_written.
  - unfold editEmployee. by destruct (negb _).
  - apply deleteEmployee_written.
Qed.

(** X6: once the stored text is the serialized record list it stays so,
    whatever the user does next: every handler that changes the list
    writes it through. *)
Theorem storage_follows_the_list (st : App) (actions : list action) :
  written st -> written (run email_format st actions).
Proof.
  revert st. induction actions as [|a actions IH]; intros st Hw; [done|].
  apply IH. by apply step_written.
Qed.

Lemma draft_step_keeps_store (st : App) (a : action) :
  draft_action a = true ->
  employees (step email_format st a) = employees st
  /\ localStorage (step email_format st a) = localStorage st.
Proof.
  intros Ha. destruct a as [v|result| |files|index| | |index|index|]; try done; cbn [step].
  - unfold onDocsSelected. by destruct files.
  - unfold editEmployee. by destruct (negb _).
Qed.

(** X7: working on the draft (typing, photo, documents, start editing,
    reset) never changes the record list or the storage. *)
Theorem draft_actions_keep_the_store (st : App) (actions : list action) :
  forallb draft_action actions = true ->
  employees (run email_format st actions) = employees st
  /\ localStorage (run email_format st actions) = localStorage st.
Proof.
  revert st. induction actions as [|a actions IH]; intros st Hall; [done|].
  cbn in Hall. apply andb_true_iff in Hall as [Ha Hall].
  destruct (draft_step_keeps_store st a Ha) as [He Hl].
  destruct (IH (step email_format st a) Hall) as [He' Hl'].
  unfold run in *. cbn [foldl]. by rewrite He', Hl'.
Qed.

End Further.

(** ** Staged documents *)

Lemma onDocsSelected_docs (st : App) (files : list DocInfo.t) :
  docs (onDocsSelected st files) = docs st ++ files.
Proof. destruct files; [by rewrite app_nil_r | done]. Qed.

Lemma length_concat_sum {A} (batches : list (list A)) :
  length (concat batches) = sum_list (map length batches).
Proof.
  induction batches as [|files batches IH]; [done|].
  cbn [concat map]. rewrite length_app, IH. reflexivity.
Qed.

(** X8: document selections accumulate: after any number of selections
    the staged list is the old one followed by every selected file, in
    order, the same file as often as it was selected. *)
Theorem selections_accumulate (st : App) (batches : list (list DocInfo.t)) :
  docs (foldl onDocsSelected st batches) = docs st ++ concat batches
  /\ length (docs (foldl onDocsSelected st batches))
     = (length (docs st) + sum_list (map length batches))%nat.
Proof.
  assert (docs (foldl onDocsSelected st batches) = docs st ++ concat batches) as Hdocs.
  { revert st. induction batches as [|files batches IH]; intros st.
    - cbn. by rewrite app_nil_r.
    - cbn [foldl concat]. rewrite IH, onDocsSelected_docs. symmetry. apply (assoc_L (++)). }
  split; [done|]. rewrite Hdocs, length_app. f_equal. apply length_concat_sum.
Qed.

(** X9: removing a staged document in range removes exactly that entry
    and touches nothing else in the component. *)
Theorem removeDoc_in_range (st : App) (i : Z) :
  0 <= i < Z.of_nat (length (docs st)) ->
  removeDoc st i = with_docs st (delete (Z.to_nat i) (docs st))
  /\ S (length (docs (removeDoc st i))) = length (docs st)
  /\ (forall j : nat, (j < Z.to_nat i)%nat -> docs (removeDoc st i) !! j = docs st !! j)
  /\ (forall j : nat, (Z.to_nat i <= j)%nat -> docs (removeDoc st i) !! j = docs st !! S j).
Proof.
  intros Hi. unfold removeDoc. rewrite splice_one_in_range by done.
  cbn [docs with_docs]. split_and!; [done | | |].
  - rewrite length_delete; [lia|]. apply lookup_lt_is_Some_2. lia.
  - intros j Hj. by apply list_lookup_delete_lt.
  - intros j Hj. by apply list_lookup_delete_ge.
Qed.

(** X10: selecting one file and removing the last staged document gives
    the component back as it was. *)
Theorem select_then_remove_restores (st : App) (d : DocInfo.t) :
  removeDoc (onDocsSelected st [d]) (Z.of_nat (length (docs st))) = st.
Proof.
  unfold removeDoc, onDocsSelected. cbn [docs with_docs].
  rewrite splice_one_in_range by (rewrite length_app; cbn; lia).
  rewrite Nat2Z.id, delete_middle.
  destruct st. cbn. by rewrite app_nil_r.
Qed.

(** ** Deleting while a record is being edited *)

(** X11: deleting a record other than the one being edited leaves the
    draft alone, edit target included; when the deleted record comes
    before the target, the record being edited has moved one position down
    and the target now designates its successor. *)
Theorem deleting_another_record_keeps_the_draft (st : App) (i j : Z) :
  editingIndex st = Some j ->
  i <> j ->
  form (deleteEmployee st i) = form st
  /\ photoPreview (deleteEmployee st i) = photoPreview st
  /\ docs (deleteEmployee st i) = docs st
  /\ editingIndex (deleteEmployee st i) = Some j
  /\ (0 <= i < j -> j < Z.of_nat (length (employees st)) ->
      employees (deleteEmployee st i) !! Z.to_nat (j - 1) = employees st !! Z.to_nat j
      /\ employees (deleteEmployee st i) !! Z.to_nat j = employees st !! S (Z.to_nat j)).
Proof.
  intros Hedit Hne.
  assert (deleteEmployee st i
          = saveEmployees (with_employees st (splice (employees st) i 1))) as Hdel.
  { unfold deleteEmployee. cbn [editingIndex saveEmployees with_localStorage with_employees].
    rewrite Hedit. rewrite decide_False; [done | congruence]. }
  split_and!; try (by rewrite Hdel).
  intros Hi Hj. rewrite deleteEmployee_employees, splice_one_in_range by lia. split.
  - rewrite list_lookup_delete_ge by lia. f_equal. lia.
  - rewrite list_lookup_delete_ge by lia. done.
Qed.

(** ** Deleting at a negative index *)

(** X20: [deleteEmployee] with a negative index deletes the record that
    many positions before the end, and the first record when the index
    reaches back past the start. *)
Theorem negative_index_deletes_from_the_end (st : App) (index : Z) :
  index < 0 ->
  employees (deleteEmployee st index)
  = delete (Z.to_nat (Z.max (Z.of_nat (length (employees st)) + index) 0)) (employees st).
Proof.
  intros Hneg. rewrite deleteEmployee_employees. unfold splice.
  replace (index <? 0) with true by (symmetry; apply Z.ltb_lt; lia).
  destruct (employees st) as [|r l]; [by rewrite take_nil, drop_nil|].
  set (len := Z.of_nat (length (r :: l))).
  assert (0 < len) as Hlen by (subst len; cbn [length]; lia).
  replace (Z.min (Z.max 1 0) (len - Z.max (len + index) 0)) with 1 by lia.
  rewrite delete_take_drop. do 2 f_equal. lia.
Qed.

(** ** Initials *)

Lemma length_join_tokens (toks : list string) :
  String.length (join toks) = sum_list (map String.length toks).
Proof.
  induction toks as [|t toks IH]; [done|].
  cbn [join foldr map sum_list]. rewrite length_append. by rewrite <- IH.
Qed.

(** X12: the initials of a name of ASCII characters are at most two
    characters long. *)
Theorem initials_at_most_two (name : string) :
  is_ascii name = true -> (String.length (initials name) <= 2)%nat.
Proof.
  intros _.
  unfold initials. rewrite length_join_tokens, map_map.
  set (toks := List.filter nonempty (split " " (or_empty name))).
  assert (length (slice0 2 toks) <= 2)%nat as Hlen by (unfold slice0; rewrite length_take; lia).
  assert (forall l : list string,
            (sum_list (map (fun s => String.length
                                       match char0 s with
                                       | Some c => toUpperCase c
                                       | None => EmptyString
                                       end) l) <= length l)%nat) as Hsum.
  { induction l as [|[|c s] l IH]; cbn in *; lia. }
  specialize (Hsum (slice0 2 toks)). lia.
Qed.

Lemma tokens_head_nonempty (sep : ascii -> bool) (s cur t : string) (ts : list string) :
  tokens sep cur s = t :: ts -> t <> EmptyString.
Proof.
  revert cur. induction s as [|c r IH]; intros cur; cbn [tokens].
  - destruct cur; [done | by intros [= <- _]].
  - destruct (sep c).
    + destruct cur; [apply IH | by intros [= <- _]].
    + apply IH.
Qed.

Lemma tokens_nil (s cur : string) :
  tokens is_space cur s = [] <-> cur = EmptyString /\ all_spaces s = true.
Proof.
  revert cur. induction s as [|c r IH]; intros cur; cbn [tokens all_spaces].
  - destruct cur; split; try done. by intros [? _].
  - destruct (is_space c); cbn [andb].
    + destruct cur; [apply IH|]. split; [done | by intros [? _]].
    + rewrite IH. split; [|by intros [_ ?]]. intros [Hcur _]. by destruct cur.
Qed.

(** X13: the initials are empty exactly when the name holds nothing but
    spaces. *)
Theorem initials_empty_iff_only_spaces (name : string) :
  initials name = EmptyString <-> all_spaces name = true.
Proof.
  rewrite initials_by_space. unfold initials_by.
  destruct (tokens is_space EmptyString name) as [|t ts] eqn:Htok.
  - split; [|done]. intros _. by apply tokens_nil in Htok as [_ ?].
  - pose proof (tokens_head_nonempty _ _ _ _ _ Htok) as Ht. split.
    + destruct t as [|c t]; [done|]. destruct ts; cbn; discriminate.
    + intros Hsp. assert (tokens is_space EmptyString name = []) as Hnil by (by apply tokens_nil).
      congruence.
Qed.

(** ** Byte counts below one kilobyte *)

Lemma toFixed_integer (n : Z) : 0 <= n -> toFixed (n # 1) 0 = Z_to_string n.
Proof.
  intros Hn. unfold toFixed, Z_to_string.
  replace (Qle_bool 0 (n # 1)) with true
    by (symmetry; unfold Qle_bool; cbn [Qnum Qden]; apply Z.leb_le; lia).
  replace (n <? 0) with false by (symmetry; apply Z.ltb_ge; lia).
  change (EmptyString +:+ ?x) with x. do 2 f_equal.
  unfold Qabs, Qmult, Qplus, inject_Z, Qfloor. cbn [Qnum Qden Z.of_nat Z.pow].
  rewrite Z.abs_eq by done. change (Z.pos (1 * 1 * 2)) with 2.
  change (Z.pos (1 * 1)) with 1. change (Z.pos 2) with 2.
  symmetry. apply (Z.div_unique _ _ _ 1); lia.
Qed.

(** X14: a count below 1024 is written as the plain number of bytes. *)
Theorem formatBytes_below_a_kilobyte (n : Z) :
  0 <= n < 1024 -> formatBytes n = Z_to_string n +:+ " B".
Proof.
  intros Hn. rewrite formatBytes_refines by (change (1024 ^ 5 - 3) with 1125899906842621; lia).
  unfold formatBytes_spec. destruct (Z.eqb_spec n 0) as [-> | Hne]; [done|].
  assert (unit_index n = 0%nat) as ->.
  { unfold unit_index. repeat case_match; try done;
      match goal with H : (_ <=? _) = true |- _ => apply Z.leb_le in H; cbn in H; lia end. }
  unfold decimal_places. rewrite orb_true_r.
  change (Z.to_pos (1024 ^ Z.of_nat 0)) with 1%positive.
  by rewrite toFixed_integer by lia.
Qed.

(** ** Holes and reloading *)

Lemma serialize_fill_holes (v : value) : serialize (fill_holes v) = serialize v.
Proof. by destruct v. Qed.

(** X15: saving and loading a record list with holes gives the list with
    [null] in place of each hole. *)
Theorem reloading_turns_holes_into_null (st : App) :
  Forall (fun v => v = VUndefined \/ storable v = true) (employees st) ->
  employees (loadEmployees (saveEmployees st)) = map fill_holes (employees st).
Proof.
  intros Hall.
  assert (serialize (VArr (employees st)) = serialize (VArr (map fill_holes (employees st)))) as Hs.
  { cbn [serialize]. rewrite map_map. do 3 f_equal. apply map_ext. intros v.
    by rewrite serialize_fill_holes. }
  assert (storable (VArr (map fill_holes (employees st))) = true) as Hst.
  { cbn [storable]. apply forallb_forall. intros x [v [<- Hv]]%in_map_iff.
    rewrite Forall_forall in Hall. apply list_elem_of_In in Hv.
    by destruct (Hall v Hv) as [-> | ?]; [|destruct v]. }
  unfold loadEmployees, loadEmployees_with, saveEmployees.
  cbn [localStorage with_localStorage]. rewrite lookup_insert_eq.
  change (default "undefined" (JSON_stringify (VArr (employees st))))
    with (serialize (VArr (employees st))).
  change (String.eqb (serialize (VArr (employees st))) EmptyString) with false.
  cbv iota. by rewrite Hs, (JSON_parse_serialize _ Hst).
Qed.

Section Constraints.

Variable email_format : string -> bool.

Lemma valid_constraints (v : FormValue.t) :
  valid email_format v = true -> constraints email_format v.
Proof.
  unfold valid, constraints, Validators.required, Validators.maxLength,
    Validators.pattern_phone, Validators.email, Validators.min.
  intros H. repeat (apply andb_true_iff in H as [H ?]).
  repeat match goal with
         | H : _ && _ = true |- _ => apply andb_true_iff in H as [? ?]
         | H : negb (String.eqb _ _) = true |- _ =>
           apply negb_true_iff, String.eqb_neq in H
         | H : (_ <=? _)%nat = true |- _ => apply Nat.leb_le in H
         | H : (_ <=? _) = true |- _ => apply Z.leb_le in H
         | H : (_ || _) = true |- _ => apply orb_true_iff in H as [H%String.eqb_eq | H]
         end; split_and!; try done; by (left + right).
Qed.

(** X16: whenever [addEmployee] changes the record list, the record it
    puts in front is made of form values that meet every rule of
    [ngOnInit]. *)
Theorem saved_record_meets_the_rules (st : App) :
  employees (addEmployee email_format st) = employees st
  \/ (employees (addEmployee email_format st)
      = Employee_to_value
          (merge_record (FormGroup.value (form st)) (photoPreview st) (docs st))
        :: employees st
      /\ constraints email_format (FormGroup.value (form st))).
Proof.
  unfold addEmployee, invalid. destruct (valid email_format (FormGroup.value (form st))) eqn:Hv.
  - right. split; [done | by apply valid_constraints].
  - by left.
Qed.

End Constraints.

Section Further_runs.

Variable email_format : string -> bool.

(** ** An update in range *)

(** X17: an accepted update whose edit target is in range puts at the
    target the object whose members are the eleven form values, the photo
    preview ([null] when there is none) and the staged documents (name and
    size of each), keeps the length of the list and keeps every other
    record. *)
Theorem update_in_range_replaces_only_the_target (st : App) (i : Z) :
  invalid email_format (form st) = false ->
  editingIndex st = Some i ->
  0 <= i < Z.of_nat (length (employees st)) ->
  let v := FormGroup.value (form st) in
  let record :=
    VObj [("name", VStr (FormValue.name v));
          ("phone", VStr (FormValue.phone v));
          ("email", VStr (FormValue.email v));
          ("nid", VStr (FormValue.nid v));
          ("dob", VStr (FormValue.dob v));
          ("address", VStr (FormValue.address v));
          ("qualification", VStr (FormValue.qualification v));
          ("religion", VStr (FormValue.religion v));
          ("experience", VNum (FormValue.experience v));
          ("lastWorkPlace", VStr (FormValue.lastWorkPlace v));
          ("salary", VNum (FormValue.salary v));
          ("photoDataUrl", match photoPreview st with
                           | Some url => VStr url
                           | None => VNull
                           end);
          ("documents",
           VArr (map (fun d => VObj [("name", VStr (DocInfo.name d));
                                     ("size", VNum (DocInfo.size d))])
                     (docs st)))] in
  length (employees (updateEmployee email_format st)) = length (employees st)
  /\ employees (updateEmployee email_format st) !! Z.to_nat i = Some record
  /\ forall j : nat, j <> Z.to_nat i ->
       employees (updateEmployee email_format st) !! j = employees st !! j.
Proof.
  intros Hvalid Hedit Hi v record.
  destruct (updateEmployee_in_range email_format st i Hvalid Hedit Hi) as (Hlist & Hlen & Hat).
  split_and!; [done | exact Hat |].
  intros j Hj. rewrite Hlist. by apply list_lookup_insert_ne.
Qed.

(** ** The edit target in a run *)

Lemma step_target_nonnegative (st : App) (a : action) :
  (forall j, editingIndex st = Some j -> 0 <= j) ->
  forall j, editingIndex (step email_format st a) = Some j -> 0 <= j.
Proof.
  intros Hst j. destruct a as [v|result| |files|index| | |index|index|]; cbn [step].
  - apply Hst.
  - apply Hst.
  - apply Hst.
  - unfold onDocsSelected. destruct files; apply Hst.
  - apply Hst.
  - unfold addEmployee. destruct (invalid email_format (form st)); [apply Hst | done].
  - unfold updateEmployee. destruct (invalid email_format (form st)); [apply Hst|].
    destruct (editingIndex st) as [idx|] eqn:Hidx; [|by rewrite Hidx].
    destruct (idx <? 0); [|done]. rewrite Hidx. intros [= <-]. by apply Hst.
  - unfold editEmployee, array_get. destruct (Z.ltb_spec index 0); [apply Hst|].
    destruct (negb _); [apply Hst|]. cbn. by intros [= <-].
  - unfold deleteEmployee. case_decide; [done|]. apply Hst.
  - done.
Qed.

(** X18: in no run of the component from its start is the edit target
    negative (the guard [idx < 0] of [updateEmployee] never fires). *)
Theorem edit_target_is_never_negative (ls : gmap string string) (actions : list action) (j : Z) :
  editingIndex (run email_format (ngOnInit (new_App ls)) actions) = Some j -> 0 <= j.
Proof.
  assert (forall st, (forall j, editingIndex st = Some j -> 0 <= j) ->
                     forall j, editingIndex (run email_format st actions) = Some j -> 0 <= j) as Hrun.
  { induction actions as [|a actions IH]; intros st Hst; [done|].
    apply IH. by apply step_target_nonnegative. }
  apply Hrun. unfold ngOnInit, loadEmployees, loadEmployees_with. cbn [localStorage with_form new_App].
  intros j'. repeat case_match; done.
Qed.

(** ** Records come newest first *)

(** X19: records submitted one after the other are stored newest first. *)
Theorem records_are_newest_first (st : App) (vs : list FormValue.t) :
  Forall (fun v => valid email_format v = true) vs ->
  photoPreview st = None -> docs st = [] ->
  employees (foldl (fun st v => addEmployee email_format (input st v)) st vs)
  = rev (map (fun v => Employee_to_value (merge_record v None [])) vs) ++ employees st.
Proof.
  intros Hvs. revert st. induction Hvs as [|v vs Hv _ IH]; intros st Hphoto Hdocs; [done|].
  cbn [foldl map rev].
  assert (addEmployee email_format (input st v)
          = resetForm (saveEmployees
                         (with_employees (input st v)
                            (Employee_to_value (merge_record v None []) :: employees st)))) as ->.
  { unfold addEmployee, invalid. cbn [form input with_form FormGroup.value photoPreview docs employees].
    by rewrite Hv, Hphoto, Hdocs. }
  rewrite IH by done. cbn [employees resetForm saveEmployees with_localStorage with_employees].
  by rewrite <- (assoc_L (++)).
Qed.

End Further_runs.

(** ** The further properties at concrete inputs *)

Lemma editEmployee_loads_record_witness :
  employees (two_records john None) !! 0%nat = Some (Employee_to_value (merge_record jane None [cv]))
  /\ FormGroup.value (form (editEmployee (two_records john None) 0)) = jane
  /\ docs (editEmployee (two_records john None) 0) = [cv]
  /\ editingIndex (editEmployee (two_records john None) 0) = Some 0.
Proof.
  split; [reflexivity|].
  pose proof (editEmployee_loads_record (two_records john None) 0
                (merge_record jane None [cv]) eq_refl) as Hedit.
  change (Z.of_nat 0) with 0 in Hedit. rewrite Hedit. by split_and!.
Defined.

Lemma edit_then_update_keeps_list_witness :
  employees (two_records john None) !! 0%nat = Some (Employee_to_value (merge_record jane None [cv]))
  /\ valid any_email jane = true
  /\ employees (updateEmployee any_email (editEmployee (two_records john None) 0))
     = [jane_record; john_record].
Proof.
  split; [reflexivity|]. split; [reflexivity|].
  exact (edit_then_update_keeps_list any_email (two_records john None) 0 jane None [cv]
           eq_refl eq_refl).
Defined.

Lemma accepted_submission_resets_draft_witness :
  invalid any_email (form (two_records jane (Some 1))) = false
  /\ form (updateEmployee any_email (two_records jane (Some 1))) = FormGroup.mk blank ∅
  /\ isEditing (updateEmployee any_email (two_records jane (Some 1))) = false
  /\ written (updateEmployee any_email (two_records jane (Some 1))).
Proof.
  split; [reflexivity|].
  destruct (accepted_submission_resets_draft any_email (two_records jane (Some 1))
              (updateEmployee any_email (two_records jane (Some 1))))
    as (Hform & _ & _ & _ & Hedit & Hw).
  - reflexivity.
  - right. split; [reflexivity|]. exists 1. split; [reflexivity | lia].
  - by split_and!.
Defined.

Lemma reopening_shows_what_was_saved_witness :
  forallb storable (employees (two_records jane None)) = true
  /\ employees (ngOnInit (new_App (localStorage (deleteEmployee (two_records jane None) 0))))
     = [john_record].
Proof.
  split; [reflexivity|].
  rewrite (reopening_shows_what_was_saved any_email (two_records jane None)
             (deleteEmployee (two_records jane None) 0));
    [reflexivity | reflexivity | left; by exists 0].
Defined.

Lemma storage_follows_the_list_witness :
  written (saveEmployees (two_records jane None))
  /\ written (run any_email (saveEmployees (two_records jane None)) [Edit 1; Delete 0; Update]).
Proof.
  split; [reflexivity|].
  apply (storage_follows_the_list any_email). reflexivity.
Defined.

Lemma draft_actions_keep_the_store_witness :
  forallb draft_action draft_session = true
  /\ employees (run any_email (two_records jane None) draft_session) = [jane_record; john_record]
  /\ localStorage (run any_email (two_records jane None) draft_session) = ∅.
Proof.
  split; [reflexivity|].
  apply (draft_actions_keep_the_store any_email (two_records jane None) draft_session).
  reflexivity.
Defined.

Lemma removeDoc_in_range_witness :
  0 <= 0 < Z.of_nat (length (docs (two_records jane None)))
  /\ docs (removeDoc (two_records jane None) 0) = [].
Proof.
  split; [simpl; lia|].
  destruct (removeDoc_in_range (two_records jane None) 0) as [-> _]; [simpl; lia | reflexivity].
Defined.

Lemma deleting_another_record_keeps_the_draft_witness :
  editingIndex (two_records jane (Some 1)) = Some 1
  /\ 0 <> 1
  /\ editingIndex (deleteEmployee (two_records jane (Some 1)) 0) = Some 1
  /\ employees (deleteEmployee (two_records jane (Some 1)) 0) !! 0%nat = Some john_record
  /\ employees (deleteEmployee (two_records jane (Some 1)) 0) !! 1%nat = None.
Proof.
  split; [reflexivity|]. split; [lia|].
  destruct (deleting_another_record_keeps_the_draft (two_records jane (Some 1)) 0 1)
    as (_ & _ & _ & Hedit & Hshift); [reflexivity | lia |].
  destruct Hshift as [Hprev Hnext]; [lia | simpl; lia |].
  split_and!; [exact Hedit | exact Hprev | exact Hnext].
Defined.

Lemma initials_at_most_two_witness :
  is_ascii "anna maria lee" = true
  /\ initials "anna maria lee" = "AM"
  /\ (String.length (initials "anna maria lee") <= 2)%nat.
Proof.
  split; [reflexivity|]. split; [reflexivity|].
  apply (initials_at_most_two "anna maria lee"). reflexivity.
Defined.

Lemma formatBytes_below_a_kilobyte_witness :
  0 <= 512 < 1024 /\ formatBytes 512 = "512 B".
Proof.
  split; [lia|]. rewrite (formatBytes_below_a_kilobyte 512) by lia. reflexivity.
Defined.

Lemma reloading_turns_holes_into_null_witness :
  Forall (fun v => v = VUndefined \/ storable v = true) (employees holed)
  /\ employees (loadEmployees (saveEmployees holed)) = [jane_record; VNull; john_record].
Proof.
  split.
  - repeat constructor; (by left) || (by right).
  - rewrite (reloading_turns_holes_into_null holed); [reflexivity|].
    repeat constructor; (by left) || (by right).
Defined.

Lemma update_in_range_replaces_only_the_target_witness :
  invalid any_email (form (staged (Some 0))) = false
  /\ editingIndex (staged (Some 0)) = Some 0
  /\ 0 <= 0 < Z.of_nat (length (employees (staged (Some 0))))
  /\ employees (staged (Some 0)) = [john_record]
  /\ employees (updateEmployee any_email (staged (Some 0))) !! 0%nat
     = Some (VObj [("name", VStr "Jane Doe");
           ("phone", VStr "1234567890");
           ("email", VStr EmptyString);
           ("nid", VStr "N-1");
           ("dob", VStr "1990-01-01");
           ("address", VStr "1 Main Street");
           ("qualification", VStr "BSc");
           ("religion", VStr EmptyString);
           ("experience", VNum 3);
           ("lastWorkPlace", VStr "Acme");
           ("salary", VNum 1000);
           ("photoDataUrl", VStr "data:image/png;base64,AAAA");
           ("documents", VArr [VObj [("name", VStr "cv.pdf"); ("size", VNum 1536)]])])
  /\ length (employees (updateEmployee any_email (staged (Some 0)))) = 1%nat.
Proof.
  split; [reflexivity|]. split; [reflexivity|]. split; [simpl; lia|].
  split; [reflexivity|].
  destruct (update_in_range_replaces_only_the_target any_email (staged (Some 0)) 0)
    as (Hlen & Hat & _); [reflexivity | reflexivity | simpl; lia |].
  split; [exact Hat | exact Hlen].
Defined.

Lemma edit_target_is_never_negative_witness :
  editingIndex (run any_email (ngOnInit (new_App ∅)) [Input jane; Add; Edit 0]) = Some 0
  /\ 0 <= 0.
Proof.
  split; [reflexivity|].
  apply (edit_target_is_never_negative any_email ∅ [Input jane; Add; Edit 0] 0). reflexivity.
Defined.

Lemma records_are_newest_first_witness :
  Forall (fun v => valid any_email v = true) [jane; john]
  /\ photoPreview (ngOnInit (new_App ∅)) = None
  /\ docs (ngOnInit (new_App ∅)) = []
  /\ employees (foldl (fun st v => addEmployee any_email (input st v))
                  (ngOnInit (new_App ∅)) [jane; john])
     = [Employee_to_value (merge_record john None []);
        Employee_to_value (merge_record jane None [])].
Proof.
  split; [by repeat constructor|]. split; [reflexivity|]. split; [reflexivity|].
  rewrite (records_are_newest_first any_email (ngOnInit (new_App ∅)) [jane; john]);
    [reflexivity | by repeat constructor | reflexivity | reflexivity].
Defined.

Lemma negative_index_deletes_from_the_end_witness :
  -5 < 0 /\ employees (deleteEmployee (two_records jane None) (-5)) = [john_record].
Proof.
  split; [lia|].
  rewrite (negative_index_deletes_from_the_end (two_records jane None) (-5)); [reflexivity | lia].
Defined.
